(** * EOF Stats: statistics footer of a markdown document

    A shallow embedding of [main.ts] (the plugin source, in its current
    revision with the settings copy and the silent read failure, and in
    the earlier revision where the two differ) and the properties of the
    statistics extractor, the formatter, the live editor field and the
    reading-view post processor. *)

From Stdlib Require Import String Ascii NArith Decimal DecimalString.
From stdpp Require Import base option list strings gmap sets.

#[local] Set Warnings "-clear-no-such-hyp".
Local Open Scope nat_scope.

(** ** JavaScript strings

    A JavaScript string is a sequence of UTF-16 code units; [length],
    regular expressions without the [u] flag and [split] all work on
    code units. *)

Module JS.

(** A literal of the source, written as a Rocq string of ASCII characters. *)
Definition lit (s : string) : list N :=
  N_of_ascii <$> list_ascii_of_string s.

(** [\s]: the WhiteSpace and LineTerminator code points of ECMAScript. *)
Definition isWhiteSpace (c : N) : bool :=
  ((9 <=? c) && (c <=? 13))%N
  || (c =? 32)%N || (c =? 160)%N || (c =? 5760)%N
  || ((8192 <=? c) && (c <=? 8202))%N
  || (c =? 8232)%N || (c =? 8233)%N || (c =? 8239)%N
  || (c =? 8287)%N || (c =? 12288)%N || (c =? 65279)%N.

(** ** The regular expressions of the source

    Only the constructs the three literals of [calculateStats] use:
    the start assertion, single characters, character classes, an
    optional atom, greedy and lazy repetition of a class and one
    capturing group. *)

Inductive Pattern : Type :=
  | Empty                                         (* the empty pattern *)
  | AssertStart                                   (* ^ *)
  | Char (c : N)                                  (* a literal character *)
  | Class (p : N → bool)                          (* [...] *)
  | Optional (r : Pattern)                        (* r? *)
  | Star (greedy : bool) (p : N → bool)           (* [...]* and [...]*? *)
  | Plus (p : N → bool)                           (* [...]+ *)
  | Seq (r1 r2 : Pattern)
  | Group (r : Pattern).                          (* ( r ), group 1 *)

(** The state of the backtracking matcher: the index reached, the input
    left from there on, and the capture of group 1. *)
Record MatchState : Type := mkState {
  endIndex : nat;
  rest : list N;
  capture1 : option (list N)
}.

Definition Continuation : Type := MatchState → option MatchState.

(** Greedy repetition of a class: take one more character when possible
    and fall back to the continuation when the longer attempt fails. *)
Fixpoint repeatGreedy (p : N → bool) (i : nat) (s : list N)
    (cap : option (list N)) (c : Continuation) : option MatchState :=
  match s with
  | ch :: tl =>
      if p ch then
        match repeatGreedy p (S i) tl cap c with
        | Some z => Some z
        | None => c (mkState i s cap)
        end
      else c (mkState i s cap)
  | [] => c (mkState i s cap)
  end.

(** Lazy repetition: try the continuation first, extend on failure. *)
Fixpoint repeatLazy (p : N → bool) (i : nat) (s : list N)
    (cap : option (list N)) (c : Continuation) : option MatchState :=
  match c (mkState i s cap) with
  | Some z => Some z
  | None =>
      match s with
      | ch :: tl => if p ch then repeatLazy p (S i) tl cap c else None
      | [] => None
      end
  end.

Definition matchChar (p : N → bool) (x : MatchState) (c : Continuation)
    : option MatchState :=
  match rest x with
  | ch :: tl => if p ch then c (mkState (S (endIndex x)) tl (capture1 x)) else None
  | [] => None
  end.

(** The matcher of a pattern, in the continuation style of the
    ECMAScript specification. *)
Fixpoint matcher (r : Pattern) (x : MatchState) (c : Continuation)
    : option MatchState :=
  match r with
  | Empty => c x
  | AssertStart => if Nat.eqb (endIndex x) 0 then c x else None
  | Char a => matchChar (N.eqb a) x c
  | Class p => matchChar p x c
  | Optional r1 =>
      (* an iteration that consumes nothing is rejected *)
      match matcher r1 x (λ y, if Nat.eqb (endIndex y) (endIndex x) then None else c y) with
      | Some z => Some z
      | None => c x
      end
  | Star true p => repeatGreedy p (endIndex x) (rest x) (capture1 x) c
  | Star false p => repeatLazy p (endIndex x) (rest x) (capture1 x) c
  | Plus p =>
      matchChar p x (λ y, repeatGreedy p (endIndex y) (rest y) (capture1 y) c)
  | Seq r1 r2 => matcher r1 x (λ y, matcher r2 y c)
  | Group r1 =>
      matcher r1 x (λ y,
        c (mkState (endIndex y) (rest y)
             (Some (take (endIndex y - endIndex x) (rest x)))))
  end.

(** The result of a successful [exec]: [index], the matched text [m0]
    and the first capture [m1] ([None] is [undefined]). *)
Record MatchResult : Type := mkResult {
  index : nat;
  lastIndex : nat;
  m0 : list N;
  m1 : option (list N);
  after : list N
}.

(** One attempt of the pattern at position [i], [s] being the input from
    [i] on. *)
Definition matchAt (r : Pattern) (i : nat) (s : list N) : option MatchResult :=
  match matcher r (mkState i s None) Some with
  | Some y => Some (mkResult i (endIndex y) (take (endIndex y - i) s) (capture1 y) (rest y))
  | None => None
  end.

(** RegExpBuiltinExec: the first position from [i] on, up to and
    including the end of the input, where the pattern matches. *)
Fixpoint RegExpBuiltinExec (r : Pattern) (i : nat) (s : list N) : option MatchResult :=
  match matchAt r i s with
  | Some res => Some res
  | None =>
      match s with
      | [] => None
      | _ :: tl => RegExpBuiltinExec r (S i) tl
      end
  end.

(** [String.prototype.replace] with a regular expression without the
    [g] flag: the first match, searched from index 0, is replaced. *)
Definition String_replace (r : Pattern) (replacement s : list N) : list N :=
  match RegExpBuiltinExec r 0 s with
  | Some res => take (index res) s ++ replacement ++ after res
  | None => s
  end.

(** The loop of [String.prototype.match] with the [g] flag: [exec] is
    repeated from [lastIndex]; after an empty match [lastIndex] is
    advanced by one.  [None] when the fuel runs out. *)
Fixpoint matchLoop (fuel : nat) (r : Pattern) (i : nat) (s : list N)
    : option (list (list N)) :=
  match fuel with
  | O => None
  | S fuel' =>
      match RegExpBuiltinExec r i s with
      | None => Some []
      | Some res =>
          match m0 res, after res with
          | [], [] => Some [m0 res]
          | [], _ :: tl => cons (m0 res) <$> matchLoop fuel' r (S (lastIndex res)) tl
          | _ :: _, _ => cons (m0 res) <$> matchLoop fuel' r (lastIndex res) (after res)
          end
      end
  end.

(** [s.match(r)] for a global [r]: the array of the matched substrings,
    or [null] ([None] here) when there is none. *)
Definition String_match (fuel : nat) (r : Pattern) (s : list N)
    : option (option (list (list N))) :=
  l ← matchLoop fuel r 0 s;
  Some (match l with [] => None | _ => Some l end).

(** [s.split(sep)] for a separator of one character. *)
Fixpoint String_split (sep : N) (s : list N) : list (list N) :=
  match s with
  | [] => [[]]
  | ch :: tl =>
      if N.eqb ch sep then [] :: String_split sep tl
      else
        match String_split sep tl with
        | seg :: segs => (ch :: seg) :: segs
        | [] => [[ch]]
        end
  end.

(** [parts.join(sep)]. *)
Fixpoint Array_join (sep : list N) (parts : list (list N)) : list N :=
  match parts with
  | [] => []
  | [p] => p
  | p :: ps => p ++ sep ++ Array_join sep ps
  end.

(** A string literal of the source as a pattern. *)
Definition Str (s : string) : Pattern :=
  foldr (λ ch r, Seq (Char ch) r) Empty (lit s).

End JS.

(** ** The statistics extractor ([calculateStats]) *)

Module Stats.
Import JS.

Record FileStats : Type := mkStats {
  urls : nat;
  links : nat
}.

Definition anyChar (c : N) : bool := isWhiteSpace c || negb (isWhiteSpace c).

(** [[^\s)\]>]] *)
Definition urlChar (c : N) : bool :=
  negb (isWhiteSpace c || (c =? 41)%N || (c =? 93)%N || (c =? 62)%N).

(** [[^\]|#]] *)
Definition linkChar (c : N) : bool :=
  negb ((c =? 93)%N || (c =? 124)%N || (c =? 35)%N).

(** [/^---[\s\S]*?---\n?/] *)
Definition frontmatterRegex : Pattern :=
  Seq AssertStart
    (Seq (Str "---")
       (Seq (Star false anyChar)
          (Seq (Str "---") (Optional (Char 10%N))))).

(** [/https?:\/\/[^\s)\]>]+/g] *)
Definition urlRegex : Pattern :=
  Seq (Str "http")
    (Seq (Optional (Char 115%N))
       (Seq (Str "://") (Plus urlChar))).

(** [/\[\[([^\]|#]+)/g] *)
Definition wikilinkRegex : Pattern :=
  Seq (Str "[[") (Group (Plus linkChar)).

(** The [while ((match = wikilinkRegex.exec(...)) !== null)] loop: the
    regular expression object keeps [lastIndex] between the calls, and
    every match adds [match[1]] to the set.  [None] when the fuel runs
    out. *)
Fixpoint execLoop (fuel : nat) (i : nat) (s : list N)
    (links : gset (option (list N))) : option (gset (option (list N))) :=
  match fuel with
  | O => None
  | S fuel' =>
      match RegExpBuiltinExec wikilinkRegex i s with
      | None => Some links
      | Some match_ =>
          execLoop fuel' (lastIndex match_) (after match_) ({[ m1 match_ ]} ∪ links)
      end
  end.

(** The body of [calculateStats] after the frontmatter has been
    removed: the set of the matched URLs and the set of the link
    targets, and their sizes. *)
Definition scanFuel (fuel : nat) (text : list N) : option FileStats :=
  matched ← String_match fuel urlRegex text;
  let urls : gset (list N) := list_to_set (default [] matched) in
  links ← execLoop fuel 0 text ∅;
  Some (mkStats (size urls) (size links)).

Definition contentWithoutFrontmatter (content : list N) : list N :=
  String_replace frontmatterRegex [] content.

Definition calculateStatsFuel (fuel : nat) (content : list N) : option FileStats :=
  scanFuel fuel (contentWithoutFrontmatter content).

(** The loops end within [length content + 1] rounds
    ([calculateStats_terminates] below), which makes the extractor a
    total function; [scan] is the same for a text that is counted as it
    is. *)
Definition calculateStats (content : list N) : FileStats :=
  default (mkStats 0 0) (calculateStatsFuel (S (length content)) content).

Definition scan (text : list N) : FileStats :=
  default (mkStats 0 0) (scanFuel (S (length text)) text).

End Stats.

(** ** The formatter ([formatNumber], [buildStatsString]) *)

Module Format.
Import JS Stats.

Record EOFStatsSettings : Type := mkSettings {
  showUrls : bool;
  showLinks : bool;
  statsColor : list N;
  lineColor : list N;
  eofColor : list N
}.

Definition DEFAULT_SETTINGS : EOFStatsSettings :=
  mkSettings true true (lit "#999999") (lit "#999999") (lit "#999999").

(** [Number.prototype.toLocaleString] belongs to the host and depends on
    its locale. *)
Class Locale : Type := { toLocaleString : nat → list N }.

(** The en-US rendering: decimal digits in groups of three. *)
Fixpoint groupDigits (k : nat) (ds : list N) : list N :=
  match ds with
  | [] => []
  | d :: tl =>
      match k with
      | O => 44%N :: d :: groupDigits 2 tl
      | S k' => d :: groupDigits k' tl
      end
  end.

Definition en_US : Locale :=
  {| toLocaleString n :=
       reverse (groupDigits 3 (reverse (lit (NilEmpty.string_of_uint (Nat.to_uint n))))) |}.

Section WithLocale.
Context `{Locale}.

Definition formatNumber (num : nat) : list N := toLocaleString num.

Definition buildStatsString (stats : FileStats) (settings : EOFStatsSettings) : list N :=
  let parts : list (list N) := [] in
  let parts :=
    if showUrls settings
    then parts ++ [lit "URLs: " ++ formatNumber (urls stats)] else parts in
  let parts :=
    if showLinks settings
    then parts ++ [lit "Links: " ++ formatNumber (links stats)] else parts in
  Array_join (lit " | ") parts.

End WithLocale.
End Format.

(** ** The footer element ([createEOFStatsElement]) *)

Module Footer.
Import JS Stats Format.

#[local] Unset Elimination Schemes.
Inductive HTMLElement : Type :=
  mkElement {
    tagName : string;
    className : string;
    textContent : list N;
    style : list (string * list N);
    children : list HTMLElement
  }.
#[local] Set Elimination Schemes.

Definition createEl (cls : string) (text : list N) (st : list (string * list N))
    (kids : list HTMLElement) : HTMLElement :=
  mkElement "div" cls text st kids.

Definition appendChild (parent child : HTMLElement) : HTMLElement :=
  mkElement (tagName parent) (className parent) (textContent parent)
    (style parent) (children parent ++ [child]).

Section WithLocale.
Context `{Locale}.

Definition createEOFStatsElement (stats : FileStats) (settings : EOFStatsSettings)
    : HTMLElement :=
  let statsString := buildStatsString stats settings in
  let statsLine :=
    match statsString with
    | [] => []
    | _ :: _ =>
        [createEl "eof-stats-line" statsString [("color", statsColor settings)] []]
    end in
  let line1 := createEl "eof-line-horizontal" [] [("borderColor", lineColor settings)] [] in
  let textDiv := createEl "eof-text" (lit "EOF") [("color", eofColor settings)] [] in
  let line2 := createEl "eof-line-horizontal" [] [("borderColor", lineColor settings)] [] in
  let eofDiv := createEl "eof-indicator" [] [] [line1; textDiv; line2] in
  createEl "eof-stats-container" [] [] (statsLine ++ [eofDiv]).

End WithLocale.
End Footer.

(** ** The live editor field ([EOFStatsWidget], [buildEOFDecoration],
    [createEOFStatsField])

    Settings objects live in a heap and are handed around by reference:
    the settings tab assigns to the fields of [plugin.settings] in
    place, and a widget keeps whatever reference its constructor was
    given. *)

Module Live.
Import JS Stats Format Footer.

Record EOFStatsWidget : Type := mkWidget {
  stats : FileStats;
  settings : positive                    (* a reference into the heap *)
}.

Record Decoration : Type := mkDecoration {
  widget : EOFStatsWidget;
  side : Z;
  block : bool
}.

(** A decoration set: the point ranges with their decorations. *)
Definition DecorationSet : Type := list (nat * Decoration).

(** The heap of settings objects, with a ghost record of the texts
    [calculateStats] has been run over (newest first). *)
Record World : Type := mkWorld {
  heap : gmap positive EOFStatsSettings;
  statsRuns : list (list N)
}.

Record EOFStatsPlugin : Type := mkPlugin {
  plugin_settings : positive
}.

(** What the editor engine provides: the change sets of transactions
    and the mapping of a decoration set through one. *)
Class CodeMirror : Type := {
  ChangeSet : Type;
  RangeSet_map : ChangeSet → DecorationSet → DecorationSet
}.

Record Transaction `{CodeMirror} : Type := mkTransaction {
  docChanged : bool;
  changes : ChangeSet;
  state_doc : list N
}.

(** An assignment [plugin.settings.field = value] of the settings tab. *)
Definition assign (f : EOFStatsSettings → EOFStatsSettings)
    (plugin : EOFStatsPlugin) (w : World) : World :=
  mkWorld (alter f (plugin_settings plugin) (heap w)) (statsRuns w).

Definition eqSettings (a b : EOFStatsSettings) : bool :=
  Bool.eqb (showUrls a) (showUrls b) &&
  Bool.eqb (showLinks a) (showLinks b) &&
  bool_decide (statsColor a = statsColor b) &&
  bool_decide (lineColor a = lineColor b) &&
  bool_decide (eofColor a = eofColor b).

(** [EOFStatsWidget.eq]: every field is read through the two widgets'
    references and compared with [===]. *)
Definition eq (w : World) (this other : EOFStatsWidget) : option bool :=
  a ← heap w !! settings this;
  b ← heap w !! settings other;
  Some (Nat.eqb (urls (stats this)) (urls (stats other)) &&
        Nat.eqb (links (stats this)) (links (stats other)) &&
        eqSettings a b).

Section WithHost.
Context `{Locale} `{CodeMirror}.

Definition toDOM (w : World) (this : EOFStatsWidget) : option HTMLElement :=
  s ← heap w !! settings this;
  Some (createEOFStatsElement (stats this) s).

(** [buildEOFDecoration]: [{ ...settings }] allocates a new object with
    the values the fields of [settings] have now. *)
Definition buildEOFDecoration (content : list N) (settings : positive) (w : World)
    : option (DecorationSet * World) :=
  let stats := calculateStats content in
  values ← heap w !! settings;
  let settingsCopy := fresh (dom (heap w)) in
  let w' := mkWorld (<[settingsCopy := values]> (heap w)) (content :: statsRuns w) in
  let widget := mkWidget stats settingsCopy in
  let deco := mkDecoration widget 1 true in
  Some ([(length content, deco)], w').

(** The two methods of the state field of [createEOFStatsField]. *)
Definition create (plugin : EOFStatsPlugin) (doc : list N) (w : World)
    : option (DecorationSet * World) :=
  buildEOFDecoration doc (plugin_settings plugin) w.

Definition update (plugin : EOFStatsPlugin) (decorations : DecorationSet)
    (tr : Transaction) (w : World) : option (DecorationSet * World) :=
  if negb (docChanged tr) then Some (RangeSet_map (changes tr) decorations, w)
  else buildEOFDecoration (state_doc tr) (plugin_settings plugin) w.

(** The transactions of an editing session, one after the other. *)
Fixpoint dispatchAll (plugin : EOFStatsPlugin) (decorations : DecorationSet)
    (trs : list Transaction) (w : World) : option (DecorationSet * World) :=
  match trs with
  | [] => Some (decorations, w)
  | tr :: trs' =>
      match update plugin decorations tr w with
      | Some (decorations', w') => dispatchAll plugin decorations' trs' w'
      | None => None
      end
  end.

End WithHost.

(** A host for examples: change sets that move nothing. *)
Definition noChanges : CodeMirror :=
  {| ChangeSet := unit; RangeSet_map := λ _ decorations, decorations |}.

End Live.

(** ** The reading-view post processor ([addEOFToReadingView]) *)

Module Reading.
Import JS Stats Format Footer.

Inductive TAbstractFile : Type :=
  | TFile (path : string)
  | TFolder (path : string).

Record SectionInfo : Type := mkSectionInfo {
  lineStart : Z;
  lineEnd : Z
}.

(** The vault: [cachedRead] resolves with the content or rejects
    ([None]). *)
Record Vault : Type := mkVault {
  getAbstractFileByPath : string → option TAbstractFile;
  cachedRead : TAbstractFile → option (list N)
}.

(** The post processor context for the fragment at hand. *)
Record MarkdownPostProcessorContext : Type := mkContext {
  getSectionInfo : option SectionInfo;
  sourcePath : string
}.

(** What a call leaves behind once its promise has settled: the
    fragment, and whether a rejection was left without a handler. *)
Record Outcome : Type := mkOutcome {
  fragment : HTMLElement;
  unhandledRejection : bool
}.

Definition lastLineIndex (content : list N) : Z :=
  Z.of_nat (length (String_split 10%N content)) - 1.

Section WithLocale.
Context `{Locale}.

Definition addEOFToReadingView (vault : Vault) (settings : EOFStatsSettings)
    (el : HTMLElement) (ctx : MarkdownPostProcessorContext) : Outcome :=
  match getSectionInfo ctx with
  | None => mkOutcome el false
  | Some sectionInfo =>
      match getAbstractFileByPath vault (sourcePath ctx) with
      | Some (TFile path) =>
          match cachedRead vault (TFile path) with
          | Some content =>
              if (lastLineIndex content <=? lineEnd sectionInfo)%Z
              then
                let stats := calculateStats content in
                mkOutcome (appendChild el (createEOFStatsElement stats settings)) false
              else mkOutcome el false
          | None => mkOutcome el false          (* .catch(() => {}) *)
          end
      | Some (TFolder _) | None => mkOutcome el false
      end
  end.

End WithLocale.
End Reading.

(** ** The earlier revision

    Where the earlier [main.ts] differs in behaviour: the widget keeps
    the reference it is given, and the read has neither the [TFile]
    test nor a rejection handler. *)

Module Legacy.
Import JS Stats Format Footer Live Reading.

Definition buildEOFDecoration (content : list N) (settings : positive) (w : World)
    : option (DecorationSet * World) :=
  let stats := calculateStats content in
  let w' := mkWorld (heap w) (content :: statsRuns w) in
  let widget := mkWidget stats settings in
  let deco := mkDecoration widget 1 true in
  Some ([(length content, deco)], w').

(** The footer is assembled inline there; [footer] stands for that
    code. *)
Definition addEOFToReadingView (footer : FileStats → EOFStatsSettings → HTMLElement)
    (vault : Vault) (settings : EOFStatsSettings)
    (el : HTMLElement) (ctx : MarkdownPostProcessorContext) : Outcome :=
  match getSectionInfo ctx with
  | None => mkOutcome el false
  | Some sectionInfo =>
      match getAbstractFileByPath vault (sourcePath ctx) with
      | None => mkOutcome el false
      | Some file =>
          match cachedRead vault file with
          | Some content =>
              if (lastLineIndex content <=? lineEnd sectionInfo)%Z
              then mkOutcome (appendChild el (footer (calculateStats content) settings)) false
              else mkOutcome el false
          | None => mkOutcome el true
          end
      end
  end.

End Legacy.

(** ** The behaviour in words

    Direct definitions of what the three regular expressions find, to
    compare the matcher with. *)

Module Spec.
Import JS Stats.

Fixpoint stripPrefix (p s : list N) : option (list N) :=
  match p, s with
  | [], _ => Some s
  | a :: p', b :: s' => if N.eqb a b then stripPrefix p' s' else None
  | _ :: _, [] => None
  end.

Fixpoint takeWhile (p : N → bool) (s : list N) : list N :=
  match s with
  | ch :: tl => if p ch then ch :: takeWhile p tl else []
  | [] => []
  end.

Fixpoint dropWhile (p : N → bool) (s : list N) : list N :=
  match s with
  | ch :: tl => if p ch then dropWhile p tl else s
  | [] => []
  end.

(** The text after the first occurrence of [---] in [s]. *)
Fixpoint afterDashes (s : list N) : option (list N) :=
  match stripPrefix (lit "---") s with
  | Some r => Some r
  | None =>
      match s with
      | [] => None
      | _ :: tl => afterDashes tl
      end
  end.

Definition dropNewline (s : list N) : list N :=
  match s with
  | ch :: tl => if N.eqb 10 ch then tl else s
  | [] => s
  end.

(** What the code removes: when the text starts with [---] and [---]
    occurs again after these three characters, everything up to the
    first such occurrence and one newline after it. *)
Definition stripBlock (content : list N) : list N :=
  match stripPrefix (lit "---") content with
  | Some t =>
      match afterDashes t with
      | Some r => dropNewline r
      | None => content
      end
  | None => content
  end.

(** What the specification describes: the first line is [---] alone,
    a later line is [---] alone, and the text goes on with the line
    after that one. *)
Fixpoint afterClosingLine (lines : list (list N)) : option (list (list N)) :=
  match lines with
  | [] => None
  | l :: tl => if bool_decide (l = lit "---") then Some tl else afterClosingLine tl
  end.

Definition stripLeadingBlock (text : list N) : list N :=
  match String_split 10%N text with
  | first :: more =>
      if bool_decide (first = lit "---") then
        match afterClosingLine more with
        | Some restLines => Array_join [10%N] restLines
        | None => text
        end
      else text
  | [] => text
  end.

(** A URL at the head of [s]: [http://] or [https://] and then the
    longest run, of one character at least, free of white space, [)],
    []] and [>].  The result is the URL and the text after it. *)
Definition urlAt (s : list N) : option (list N * list N) :=
  let scheme (p : list N) :=
    match stripPrefix p s with
    | Some t =>
        match takeWhile urlChar t with
        | [] => None
        | u => Some (p ++ u, dropWhile urlChar t)
        end
    | None => None
    end in
  match scheme (lit "http://") with
  | Some tok => Some tok
  | None => scheme (lit "https://")
  end.

(** A link at the head of [s]: [[[] and then the longest run, of one
    character at least, free of []], [|] and [#].  The result is the
    run (the base target) and the text after it. *)
Definition targetAt (s : list N) : option (list N * list N) :=
  match stripPrefix (lit "[[") s with
  | Some t =>
      match takeWhile linkChar t with
      | [] => None
      | u => Some (u, dropWhile linkChar t)
      end
  | None => None
  end.

(** Scanning from left to right: where [tokenAt] finds a token it is
    taken and the scan goes on after it, elsewhere one character is
    passed over. *)
Inductive Tokens {A : Type} (tokenAt : list N → option (A * list N))
    : list N → list A → Prop :=
  | Tokens_end :
      tokenAt [] = None → Tokens tokenAt [] []
  | Tokens_skip ch s l :
      tokenAt (ch :: s) = None → Tokens tokenAt s l → Tokens tokenAt (ch :: s) l
  | Tokens_take s t s' l :
      tokenAt s = Some (t, s') → Tokens tokenAt s' l → Tokens tokenAt s (t :: l).

End Spec.

(** [sep] occurs in [s]. *)
Definition contains (sep s : list N) : Prop := ∃ a b, s = a ++ sep ++ b.

(** ** Sample documents *)

Module Examples.
Import JS.

Definition nl : string := String (ascii_of_nat 10) EmptyString.

(** No line of this text consists of [---] alone. *)
Definition dashesOnOneLine : list N := lit "--- https://a.example/x ---".

(** A block between two [---] lines with [---] inside one of its
    lines. *)
Definition dashesInsideBlock : list N :=
  lit ("---" +:+ nl +:+ "site: ---https://a.example/x" +:+ nl +:+
       "---" +:+ nl +:+ "body").

(** The document of the first end-to-end scenario. *)
Definition scenario1 : list N :=
  lit ("---" +:+ nl +:+ "title: Test" +:+ nl +:+ "---" +:+ nl +:+
       "See https://a.example/x and https://a.example/x again." +:+ nl +:+
       "Also [[Note A]] and [[Note A|alias]] and [[Note B]].").

Definition withFrontmatter : list N :=
  lit ("---" +:+ nl +:+ "a: https://a.example" +:+ nl +:+ "---" +:+ nl +:+ "[[b]]").

Definition threePages : list N :=
  lit "[[Page|Alias]] [[Page#Section]] [[Page]]".

(** A world with the settings object of the plugin at reference 1. *)
Definition sampleWorld : Live.World :=
  Live.mkWorld {[1%positive := Format.DEFAULT_SETTINGS]} [].

Definition samplePlugin : Live.EOFStatsPlugin := Live.mkPlugin 1.

Definition paragraph : Footer.HTMLElement :=
  Footer.mkElement "p" "" (lit "text") [] [].

(** A vault with the single file [note.md], two lines long. *)
Definition sampleVault : Reading.Vault :=
  Reading.mkVault
    (λ path, if String.eqb path "note.md" then Some (Reading.TFile path) else None)
    (λ file,
       match file with
       | Reading.TFile "note.md" => Some (lit ("one" +:+ nl +:+ "two"))
       | _ => None
       end).

End Examples.

(** ** The settings: [loadSettings], the settings tab, [saveSettings]
    and [updateEditorExtension] *)

Module Store.
Import JS Stats Format Footer Live.

(** A settings object as [loadData] returns it and [Object.assign]
    builds it: any of the five fields may be missing. *)
Record SettingsObject : Type := mkObject {
  o_showUrls : option bool;
  o_showLinks : option bool;
  o_statsColor : option (list N);
  o_lineColor : option (list N);
  o_eofColor : option (list N)
}.

(** [{}] *)
Definition emptyObject : SettingsObject := mkObject None None None None None.

(** A settings record as an object with all its fields, which is also
    what [saveData] writes. *)
Definition toObject (s : EOFStatsSettings) : SettingsObject :=
  mkObject (Some (showUrls s)) (Some (showLinks s)) (Some (statsColor s))
    (Some (lineColor s)) (Some (eofColor s)).

Definition assignField {A : Type} (target source : option A) : option A :=
  match source with
  | Some v => Some v
  | None => target
  end.

(** [Object.assign(target, source)]: the fields the source has are
    copied over the target's; a [null] source ([None]) is passed
    over. *)
Definition Object_assign (target : SettingsObject) (source : option SettingsObject)
    : SettingsObject :=
  match source with
  | None => target
  | Some src =>
      mkObject (assignField (o_showUrls target) (o_showUrls src))
        (assignField (o_showLinks target) (o_showLinks src))
        (assignField (o_statsColor target) (o_statsColor src))
        (assignField (o_lineColor target) (o_lineColor src))
        (assignField (o_eofColor target) (o_eofColor src))
  end.

(** The object read as [EOFStatsSettings]: every field has to be
    there. *)
Definition asSettings (o : SettingsObject) : option EOFStatsSettings :=
  a ← o_showUrls o; b ← o_showLinks o; c ← o_statsColor o;
  d ← o_lineColor o; e ← o_eofColor o;
  Some (mkSettings a b c d e).

(** [loadSettings]: [this.settings] becomes a new object, the defaults
    with the loaded fields on top. *)
Definition loadSettings (data : option SettingsObject) (w : World)
    : option (EOFStatsPlugin * World) :=
  values ← asSettings
    (Object_assign (Object_assign emptyObject (Some (toObject DEFAULT_SETTINGS))) data);
  let settings := fresh (dom (heap w)) in
  Some (mkPlugin settings, mkWorld (<[settings := values]> (heap w)) (statsRuns w)).

(** [saveData(this.settings)]: the stored data after the call. *)
Definition saveData (plugin : EOFStatsPlugin) (w : World) : option (option SettingsObject) :=
  values ← heap w !! plugin_settings plugin;
  Some (Some (toObject values)).

(** [value || fallback] for strings: the empty string is falsy. *)
Definition orElse (value fallback : list N) : list N :=
  match value with
  | [] => fallback
  | _ :: _ => value
  end.

(** The assignments of the five [onChange] handlers of the settings
    tab. *)
Definition setShowUrls (value : bool) (s : EOFStatsSettings) : EOFStatsSettings :=
  mkSettings value (showLinks s) (statsColor s) (lineColor s) (eofColor s).

Definition setShowLinks (value : bool) (s : EOFStatsSettings) : EOFStatsSettings :=
  mkSettings (showUrls s) value (statsColor s) (lineColor s) (eofColor s).

Definition setStatsColor (value : list N) (s : EOFStatsSettings) : EOFStatsSettings :=
  mkSettings (showUrls s) (showLinks s)
    (orElse value (statsColor DEFAULT_SETTINGS)) (lineColor s) (eofColor s).

Definition setLineColor (value : list N) (s : EOFStatsSettings) : EOFStatsSettings :=
  mkSettings (showUrls s) (showLinks s) (statsColor s)
    (orElse value (lineColor DEFAULT_SETTINGS)) (eofColor s).

Definition setEofColor (value : list N) (s : EOFStatsSettings) : EOFStatsSettings :=
  mkSettings (showUrls s) (showLinks s) (statsColor s) (lineColor s)
    (orElse value (eofColor DEFAULT_SETTINGS)).

(** What the user does in the settings tab. *)
Inductive Change : Type :=
  | ToggleUrls (value : bool)
  | ToggleLinks (value : bool)
  | StatsColor (value : list N)
  | LineColor (value : list N)
  | EofColor (value : list N).

Definition handler (c : Change) : EOFStatsSettings → EOFStatsSettings :=
  match c with
  | ToggleUrls value => setShowUrls value
  | ToggleLinks value => setShowLinks value
  | StatsColor value => setStatsColor value
  | LineColor value => setLineColor value
  | EofColor value => setEofColor value
  end.

Section WithHost.
Context `{Locale} `{CodeMirror}.

(** A state field: what [StateField.define] is given. *)
Record StateField : Type := mkStateField {
  field_create : list N → World → option (DecorationSet * World);
  field_update : DecorationSet → Transaction → World → option (DecorationSet * World)
}.

Definition createEOFStatsField (plugin : EOFStatsPlugin) : StateField :=
  mkStateField (create plugin) (update plugin).

(** What the workspace provides: the editors and previews of the open
    leaves, the dispatch of a transaction that reconfigures the
    compartment of the field, [requestMeasure] and [rerender(true)]. *)
Class Workspace : Type := {
  EditorView : Type;
  Preview : Type;
  dispatchReconfigure : StateField → EditorView → World → option (EditorView * World);
  requestMeasure : EditorView → EditorView;
  rerender : Preview → Preview
}.

Context `{Workspace}.

(** [leaf.view]: a markdown view, whose editor and preview may be
    missing, or another view. *)
Inductive View : Type :=
  | MarkdownView (cm : option EditorView) (previewMode : option Preview)
  | OtherView.

(** The callback of [iterateAllLeaves] in [updateEditorExtension]. *)
Definition updateLeaf (plugin : EOFStatsPlugin) (view : View) (w : World)
    : option (View * World) :=
  match view with
  | MarkdownView cm previewMode =>
      match cm with
      | Some cm =>
          match dispatchReconfigure (createEOFStatsField plugin) cm w with
          | Some (cm', w') =>
              Some (MarkdownView (Some (requestMeasure cm')) (rerender <$> previewMode), w')
          | None => None
          end
      | None => Some (MarkdownView None (rerender <$> previewMode), w)
      end
  | OtherView => Some (OtherView, w)
  end.

Fixpoint updateEditorExtension (plugin : EOFStatsPlugin) (leaves : list View)
    (w : World) : option (list View * World) :=
  match leaves with
  | [] => Some ([], w)
  | view :: leaves' =>
      match updateLeaf plugin view w with
      | Some (view', w') =>
          match updateEditorExtension plugin leaves' w' with
          | Some (views, w'') => Some (view' :: views, w'')
          | None => None
          end
      | None => None
      end
  end.

(** [saveSettings]: the stored data, the leaves and the world after
    it. *)
Definition saveSettings (plugin : EOFStatsPlugin) (leaves : list View) (w : World)
    : option (option SettingsObject * list View * World) :=
  data ← saveData plugin w;
  match updateEditorExtension plugin leaves w with
  | Some (leaves', w') => Some (data, leaves', w')
  | None => None
  end.

(** An [onChange] handler of the settings tab: the assignment to the
    field of [plugin.settings], then [saveSettings]. *)
Definition onChange (c : Change) (plugin : EOFStatsPlugin) (leaves : list View)
    (w : World) : option (option SettingsObject * list View * World) :=
  saveSettings plugin leaves (assign (handler c) plugin w).

End WithHost.

(** A workspace for examples: an editor is its document and the value
    of the field, a reconfiguration initialises the field with its
    [create]; a preview counts its renderings. *)
Definition simpleWorkspace : @Workspace noChanges :=
  {| EditorView := (list N * DecorationSet)%type;
     Preview := nat;
     dispatchReconfigure field cm w :=
       match @field_create noChanges field cm.1 w with
       | Some (decorations, w') => Some ((cm.1, decorations), w')
       | None => None
       end;
     requestMeasure cm := cm;
     rerender n := S n |}.

End Store.

(** ** Editing sessions and refreshed views *)

Module Session.
Import JS Stats Format Footer Live Store.

Section WithHost.
Context `{CodeMirror}.

(** The document after the transactions of a session that started with
    [doc]. *)
Definition currentDoc (doc : list N) (trs : list Transaction) : list N :=
  foldl (λ _ tr, state_doc tr) doc trs.

(** Transactions as an editor produces them: one that does not change
    the document carries the document of the state before it. *)
Fixpoint consistent (doc : list N) (trs : list Transaction) : Prop :=
  match trs with
  | [] => True
  | tr :: trs' =>
      (docChanged tr = false → state_doc tr = doc) ∧ consistent (state_doc tr) trs'
  end.

Context `{!Workspace}.
Variable viewDoc : EditorView → list N.
Variable viewField : EditorView → DecorationSet.

(** A view after [updateEditorExtension], seen through the document
    and the field value of its editor: another view is as before; a
    markdown view has its preview rendered again and, when it has an
    editor, the same document with one block widget at its end that
    holds the statistics of this document and reads [values]. *)
Definition refreshed (values : EOFStatsSettings) (w' : World) (view view' : View)
    : Prop :=
  match view, view' with
  | OtherView, OtherView => True
  | MarkdownView cm previewMode, MarkdownView cm' previewMode' =>
      previewMode' = rerender <$> previewMode ∧
      match cm, cm' with
      | None, None => True
      | Some cm, Some cm' =>
          viewDoc cm' = viewDoc cm ∧
          ∃ widget,
            viewField cm' = [(length (viewDoc cm), mkDecoration widget 1 true)] ∧
            stats widget = calculateStats (viewDoc cm) ∧
            heap w' !! Live.settings widget = Some values
      | _, _ => False
      end
  | _, _ => False
  end.

End WithHost.
End Session.

(** * Properties *)

Import JS Stats Format Footer Live Reading Spec Examples.

(** ** The matcher on the constructs of the three patterns *)

Lemma stripPrefix_app (p q s : list N) :
  stripPrefix (p ++ q) s = stripPrefix p s ≫= stripPrefix q.
Proof.
  revert s. induction p as [|a p IH]; intros s; simpl.
  - reflexivity.
  - destruct s as [|b s]; simpl.
    + reflexivity.
    + destruct (N.eqb a b); [apply IH | reflexivity].
Qed.

Lemma stripPrefix_Some (p s t : list N) :
  stripPrefix p s = Some t → s = p ++ t.
Proof.
  revert s. induction p as [|a p IH]; intros s Hs; simpl in *.
  - congruence.
  - destruct s as [|b s]; [discriminate|].
    destruct (N.eqb_spec a b) as [->|]; [|discriminate].
    f_equal. by apply IH.
Qed.

Lemma stripPrefix_same (p t : list N) : stripPrefix p (p ++ t) = Some t.
Proof.
  induction p as [|a p IH]; simpl; [reflexivity|].
  by rewrite N.eqb_refl.
Qed.

Lemma takeWhile_dropWhile (p : N → bool) (s : list N) :
  takeWhile p s ++ dropWhile p s = s.
Proof.
  induction s as [|ch s IH]; simpl; [reflexivity|].
  destruct (p ch); simpl; [by rewrite IH | reflexivity].
Qed.

Lemma anyChar_true (c : N) : anyChar c = true.
Proof. unfold anyChar. by destruct (isWhiteSpace c). Qed.

Lemma matcher_chars (l : list N) (x : MatchState) (c : Continuation) :
  matcher (foldr (λ ch r, Seq (Char ch) r) Empty l) x c =
  match stripPrefix l (rest x) with
  | Some tl => c (mkState (endIndex x + length l) tl (capture1 x))
  | None => None
  end.
Proof.
  revert x. induction l as [|a l IH]; intros [i s cap]; simpl.
  - by rewrite Nat.add_0_r.
  - unfold matchChar; simpl. destruct s as [|b s]; [reflexivity|].
    destruct (N.eqb a b); [|reflexivity].
    rewrite IH; simpl. by rewrite Nat.add_succ_r.
Qed.

Lemma matcher_Str (s : string) (x : MatchState) (c : Continuation) :
  matcher (Str s) x c =
  match stripPrefix (lit s) (rest x) with
  | Some tl => c (mkState (endIndex x + length (lit s)) tl (capture1 x))
  | None => None
  end.
Proof. apply matcher_chars. Qed.

(** With a continuation that cannot fail, the greedy repetition takes
    the longest run. *)
Lemma repeatGreedy_longest (p : N → bool) (i : nat) (s : list N)
    (cap : option (list N)) (c : Continuation) :
  (∀ y, is_Some (c y)) →
  repeatGreedy p i s cap c =
  c (mkState (i + length (takeWhile p s)) (dropWhile p s) cap).
Proof.
  intros Hc. revert i. induction s as [|ch s IH]; intros i; simpl.
  - by rewrite Nat.add_0_r.
  - destruct (p ch); simpl.
    + rewrite IH. rewrite Nat.add_succ_r; simpl.
      by destruct (Hc (mkState (S (i + length (takeWhile p s))) (dropWhile p s) cap))
        as [z ->].
    + by rewrite Nat.add_0_r.
Qed.

Lemma matcher_Plus (p : N → bool) (x : MatchState) (c : Continuation) :
  (∀ y, is_Some (c y)) →
  matcher (Plus p) x c =
  match takeWhile p (rest x) with
  | [] => None
  | u => c (mkState (endIndex x + length u) (dropWhile p (rest x)) (capture1 x))
  end.
Proof.
  intros Hc. destruct x as [i s cap]; simpl. unfold matchChar; simpl.
  destruct s as [|ch s]; simpl; [reflexivity|].
  destruct (p ch); [|reflexivity].
  rewrite repeatGreedy_longest by done. simpl. by rewrite Nat.add_succ_r.
Qed.

Lemma matcher_Seq (r1 r2 : Pattern) (x : MatchState) (c : Continuation) :
  matcher (Seq r1 r2) x c = matcher r1 x (λ y, matcher r2 y c).
Proof. reflexivity. Qed.

Lemma matcher_Group (r : Pattern) (x : MatchState) (c : Continuation) :
  matcher (Group r) x c =
  matcher r x (λ y,
    c (mkState (endIndex y) (rest y)
         (Some (take (endIndex y - endIndex x) (rest x))))).
Proof. reflexivity. Qed.

(** *** The link pattern at one position *)

Lemma matchAt_wikilinkRegex (i : nat) (s : list N) :
  matchAt wikilinkRegex i s =
  match targetAt s with
  | Some (u, s') =>
      Some (mkResult i (i + 2 + length u) (lit "[[" ++ u) (Some u) s')
  | None => None
  end.
Proof.
  unfold matchAt, wikilinkRegex, targetAt.
  rewrite matcher_Seq, matcher_Str; simpl rest; simpl endIndex; simpl capture1.
  destruct (stripPrefix (lit "[[") s) as [t|] eqn:Ht; [|reflexivity].
  apply stripPrefix_Some in Ht as ->.
  rewrite matcher_Group, matcher_Plus by (intros; eauto); simpl rest.
  pose proof (takeWhile_dropWhile linkChar t) as Htd.
  destruct (takeWhile linkChar t) as [|ch u] eqn:Hu; [reflexivity|].
  simpl endIndex; simpl capture1; simpl rest.
  f_equal. f_equal.
  - rewrite <- Htd at 1. rewrite app_assoc.
    apply take_app_length'. rewrite length_app. simpl. lia.
  - f_equal. rewrite <- Htd at 1. apply take_app_length'. simpl. lia.
Qed.

(** An optional character: the continuation is tried after the
    character first, and without it when that fails. *)
Lemma matcher_Optional_Char (a : N) (x : MatchState) (c : Continuation) :
  matcher (Optional (Char a)) x c =
  match rest x with
  | b :: tl =>
      if N.eqb a b then
        match c (mkState (S (endIndex x)) tl (capture1 x)) with
        | Some z => Some z
        | None => c x
        end
      else c x
  | [] => c x
  end.
Proof.
  destruct x as [i s cap]; cbn [matcher]; unfold matchChar;
    cbn [rest endIndex capture1].
  destruct s as [|b s]; [reflexivity|].
  destruct (N.eqb a b); [|reflexivity].
  replace (S i =? i) with false by (symmetry; apply Nat.eqb_neq; lia).
  reflexivity.
Qed.

(** *** The URL pattern at one position *)

Lemma matcher_urlTail (y : MatchState) :
  matcher (Seq (Str "://") (Plus urlChar)) y Some =
  match stripPrefix (lit "://") (rest y) with
  | Some t =>
      match takeWhile urlChar t with
      | [] => None
      | u => Some (mkState (endIndex y + 3 + length u) (dropWhile urlChar t) (capture1 y))
      end
  | None => None
  end.
Proof.
  rewrite matcher_Seq, matcher_Str.
  destruct (stripPrefix (lit "://") (rest y)) as [t|]; [|reflexivity].
  rewrite matcher_Plus by (intros; eauto). reflexivity.
Qed.

Lemma urlAt_unfold (s : list N) :
  urlAt s =
  match stripPrefix (lit "http") s with
  | Some t1 =>
      let tail (p t : list N) :=
        match stripPrefix (lit "://") t with
        | Some t3 =>
            match takeWhile urlChar t3 with
            | [] => None
            | u => Some (p ++ u, dropWhile urlChar t3)
            end
        | None => None
        end in
      match tail (lit "http://") t1 with
      | Some tok => Some tok
      | None =>
          match t1 with
          | b :: t2 => if N.eqb 115 b then tail (lit "https://") t2 else None
          | [] => None
          end
      end
  | None => None
  end.
Proof.
  unfold urlAt.
  change (lit "http://") with (lit "http" ++ lit "://").
  change (lit "https://") with (lit "http" ++ [115%N] ++ lit "://").
  rewrite !stripPrefix_app.
  destruct (stripPrefix (lit "http") s) as [t1|]; [|reflexivity].
  cbn [mbind option_bind]. 
  destruct (stripPrefix (lit "://") t1) as [t3|] eqn:H3.
  - destruct (takeWhile urlChar t3) eqn:Hu.
    + destruct t1 as [|b t2]; [reflexivity|].
      change (stripPrefix ([115%N] ++ lit "://") (b :: t2))
        with (if N.eqb 115 b then stripPrefix (lit "://") t2 else None).
      destruct (N.eqb 115 b); reflexivity.
    + reflexivity.
  - destruct t1 as [|b t2]; [reflexivity|].
    change (stripPrefix ([115%N] ++ lit "://") (b :: t2))
      with (if N.eqb 115 b then stripPrefix (lit "://") t2 else None).
    destruct (N.eqb 115 b); reflexivity.
Qed.

Lemma matchAt_urlRegex (i : nat) (s : list N) :
  matchAt urlRegex i s =
  match urlAt s with
  | Some (t, s') => Some (mkResult i (i + length t) t None s')
  | None => None
  end.
Proof.
  rewrite urlAt_unfold. unfold matchAt, urlRegex.
  rewrite matcher_Seq, matcher_Str; cbn [rest endIndex capture1].
  destruct (stripPrefix (lit "http") s) as [t1|] eqn:H1; [|reflexivity].
  apply stripPrefix_Some in H1 as ->.
  rewrite matcher_Seq, matcher_Optional_Char; cbn [rest endIndex capture1].
  rewrite !matcher_urlTail; cbn [rest endIndex capture1].
  cbv zeta. destruct t1 as [|b t2]; [reflexivity|].
  destruct (N.eqb_spec 115 b) as [<-|Hb].
  - rewrite matcher_urlTail; cbn [rest endIndex capture1].
    change (stripPrefix (lit "://") (115%N :: t2)) with (@None (list N)).
    destruct (stripPrefix (lit "://") t2) as [t3|] eqn:H3; [|reflexivity].
    apply stripPrefix_Some in H3 as ->.
    pose proof (takeWhile_dropWhile urlChar t3) as Htd.
    destruct (takeWhile urlChar t3) as [|ch u] eqn:Hu; [reflexivity|].
    f_equal. f_equal.
    + rewrite length_app. simpl. lia.
    + cbn [endIndex].
      replace (lit "http" ++ 115%N :: lit "://" ++ t3)
        with ((lit "https://" ++ ch :: u) ++ dropWhile urlChar t3)
        by (rewrite <- Htd at 2; reflexivity).
      apply take_app_length'. rewrite length_app. simpl. lia.
  - destruct (stripPrefix (lit "://") (b :: t2)) as [t3|] eqn:H3; [|reflexivity].
    apply stripPrefix_Some in H3 as ->.
    pose proof (takeWhile_dropWhile urlChar t3) as Htd.
    destruct (takeWhile urlChar t3) as [|ch u] eqn:Hu; [reflexivity|].
    f_equal. f_equal.
    + rewrite length_app. simpl. lia.
    + cbn [endIndex].
      replace (lit "http" ++ lit "://" ++ t3)
        with ((lit "http://" ++ ch :: u) ++ dropWhile urlChar t3)
        by (rewrite <- Htd at 2; reflexivity).
      apply take_app_length'. rewrite length_app. simpl. lia.
Qed.

(** *** The frontmatter pattern *)

Lemma RegExpBuiltinExec_unfold (r : Pattern) (i : nat) (s : list N) :
  RegExpBuiltinExec r i s =
  match matchAt r i s with
  | Some res => Some res
  | None =>
      match s with
      | [] => None
      | _ :: tl => RegExpBuiltinExec r (S i) tl
      end
  end.
Proof. destruct s; reflexivity. Qed.

Lemma matcher_closing (y : MatchState) :
  rest <$> matcher (Seq (Str "---") (Optional (Char 10%N))) y Some =
  dropNewline <$> stripPrefix (lit "---") (rest y).
Proof.
  rewrite matcher_Seq, matcher_Str.
  destruct (stripPrefix (lit "---") (rest y)) as [r|]; [|reflexivity].
  rewrite matcher_Optional_Char; cbn [rest endIndex capture1].
  destruct r as [|b tl]; [reflexivity|].
  cbn [dropNewline fmap option_fmap option_map].
  destruct (N.eqb 10 b); reflexivity.
Qed.

Lemma repeatLazy_closing (i : nat) (s : list N) (cap : option (list N)) :
  rest <$> repeatLazy anyChar i s cap
             (λ y, matcher (Seq (Str "---") (Optional (Char 10%N))) y Some) =
  dropNewline <$> afterDashes s.
Proof.
  revert i. induction s as [|ch s IH]; intros i.
  - pose proof (matcher_closing (mkState i [] cap)) as Hc.
    cbn [repeatLazy]. cbn [rest] in Hc.
    change (afterDashes []) with (@None (list N)).
    change (stripPrefix (lit "---") []) with (@None (list N)) in Hc.
    destruct (matcher _ (mkState i [] cap) Some) eqn:Hm;
      [discriminate Hc | reflexivity].
  - pose proof (matcher_closing (mkState i (ch :: s) cap)) as Hc.
    cbn [repeatLazy afterDashes]. cbn [rest] in Hc.
    destruct (stripPrefix (lit "---") (ch :: s)) as [r|].
    + destruct (matcher _ (mkState i (ch :: s) cap) Some) eqn:Hm;
        [exact Hc | discriminate Hc].
    + destruct (matcher _ (mkState i (ch :: s) cap) Some) eqn:Hm;
        [discriminate Hc|].
      rewrite anyChar_true. apply IH.
Qed.

Lemma matcher_AssertStart (x : MatchState) (c : Continuation) :
  matcher AssertStart x c = if Nat.eqb (endIndex x) 0 then c x else None.
Proof. reflexivity. Qed.

Lemma matcher_Star_lazy (p : N → bool) (x : MatchState) (c : Continuation) :
  matcher (Star false p) x c = repeatLazy p (endIndex x) (rest x) (capture1 x) c.
Proof. reflexivity. Qed.

Lemma matchAt_frontmatterRegex_start (s : list N) :
  after <$> matchAt frontmatterRegex 0 s =
  dropNewline <$> (stripPrefix (lit "---") s ≫= afterDashes).
Proof.
  unfold matchAt, frontmatterRegex.
  rewrite matcher_Seq, matcher_AssertStart. cbn [endIndex Nat.eqb].
  rewrite matcher_Seq, matcher_Str; cbn [rest endIndex capture1].
  destruct (stripPrefix (lit "---") s) as [t|]; [|reflexivity].
  rewrite matcher_Seq, matcher_Star_lazy.
  cbn [mbind option_bind rest endIndex capture1].
  rewrite <- repeatLazy_closing with (i := 0 + length (lit "---")) (cap := None).
  by destruct (repeatLazy _ _ _ _ _).
Qed.

Lemma matchAt_frontmatterRegex_later (i : nat) (s : list N) :
  matchAt frontmatterRegex (S i) s = None.
Proof. reflexivity. Qed.

Lemma RegExpBuiltinExec_frontmatterRegex_later (i : nat) (s : list N) :
  RegExpBuiltinExec frontmatterRegex (S i) s = None.
Proof.
  revert i. induction s as [|ch s IH]; intros i;
    rewrite RegExpBuiltinExec_unfold, matchAt_frontmatterRegex_later;
    [reflexivity | apply IH].
Qed.

Lemma matchAt_index (r : Pattern) (i : nat) (s : list N) (res : MatchResult) :
  matchAt r i s = Some res → index res = i.
Proof.
  unfold matchAt. destruct (matcher _ _ _); intros [= <-]; reflexivity.
Qed.

(** The text [calculateStats] goes on with is the input without the
    block that [stripBlock] describes. *)
Lemma contentWithoutFrontmatter_stripBlock (content : list N) :
  contentWithoutFrontmatter content = stripBlock content.
Proof.
  unfold contentWithoutFrontmatter, String_replace, stripBlock.
  rewrite RegExpBuiltinExec_unfold.
  pose proof (matchAt_frontmatterRegex_start content) as Hm.
  destruct (matchAt frontmatterRegex 0 content) as [res|] eqn:Hres.
  - apply matchAt_index in Hres as ->. rewrite take_0. cbn [app].
    destruct (stripPrefix (lit "---") content) as [t|];
      cbn [mbind option_bind fmap option_fmap option_map] in Hm;
      [|discriminate Hm].
    destruct (afterDashes t); [|discriminate Hm].
    by injection Hm.
  - replace (match content with
             | [] => None
             | _ :: tl => RegExpBuiltinExec frontmatterRegex 1 tl
             end) with (@None MatchResult)
      by (destruct content; [done | by rewrite RegExpBuiltinExec_frontmatterRegex_later]).
    destruct (stripPrefix (lit "---") content) as [t|]; [|reflexivity].
    cbn [mbind option_bind fmap option_fmap option_map] in Hm.
    by destruct (afterDashes t).
Qed.

(** ** Scanning with a global pattern *)

Lemma Tokens_functional {A : Type} (tokenAt : list N → option (A * list N))
    (s : list N) (l1 l2 : list A) :
  Tokens tokenAt s l1 → Tokens tokenAt s l2 → l1 = l2.
Proof.
  intros H1. revert l2.
  induction H1 as [He|ch s l Hn H1 IH|s t s' l Ht H1 IH]; intros l2 H2.
  - inversion H2; subst; [reflexivity | congruence].
  - inversion H2; subst; [by apply IH | congruence].
  - inversion H2; subst; try congruence.
    assert (t0 = t ∧ s'0 = s') as [-> ->] by (split; congruence).
    f_equal. by apply IH.
Qed.

Section Exec.
Context {A : Type} (r : Pattern) (tokenAt : list N → option (A * list N))
  (result : nat → A → list N → MatchResult).
Hypothesis matchAt_tokenAt : ∀ i s,
  matchAt r i s = (λ ts, result i ts.1 ts.2) <$> tokenAt s.
Hypothesis tokenAt_shorter : ∀ s t s',
  tokenAt s = Some (t, s') → length s' < length s.

Lemma RegExpBuiltinExec_None (i : nat) (s : list N) :
  RegExpBuiltinExec r i s = None → Tokens tokenAt s [].
Proof.
  revert i. induction s as [|ch s IH]; intros i;
    rewrite RegExpBuiltinExec_unfold, matchAt_tokenAt.
  - destruct (tokenAt []) eqn:Ht; [discriminate|]. intros _. by constructor.
  - destruct (tokenAt (ch :: s)) eqn:Ht; [discriminate|]. cbn.
    intros Hs. constructor; [done | by eapply IH].
Qed.

Lemma RegExpBuiltinExec_Some (i : nat) (s : list N) (res : MatchResult) :
  RegExpBuiltinExec r i s = Some res →
  ∃ j t s0 s', res = result j t s' ∧ tokenAt s0 = Some (t, s') ∧
    length s' < length s ∧
    ∀ l, Tokens tokenAt s' l → Tokens tokenAt s (t :: l).
Proof.
  revert i. induction s as [|ch s IH]; intros i;
    rewrite RegExpBuiltinExec_unfold, matchAt_tokenAt.
  - destruct (tokenAt []) as [[t s']|] eqn:Ht; [|discriminate].
    apply tokenAt_shorter in Ht. simpl in Ht. lia.
  - destruct (tokenAt (ch :: s)) as [[t s']|] eqn:Ht; cbn.
    + intros [= <-]. pose proof (tokenAt_shorter _ _ _ Ht) as Hlen.
      exists i, t, (ch :: s), s'. split_and!; [done..|].
      intros l Hl. by eapply Tokens_take.
    + intros Hs. destruct (IH _ Hs) as (j & t & s0 & s' & -> & H0 & Hlen & Htok).
      exists j, t, s0, s'. split_and!; [done | done | simpl; lia |].
      intros l Hl. apply Tokens_skip; [done | by apply Htok].
Qed.
End Exec.

Lemma dropWhile_length (p : N → bool) (s : list N) :
  length (dropWhile p s) + length (takeWhile p s) = length s.
Proof.
  rewrite <- (takeWhile_dropWhile p s) at 3. rewrite length_app. lia.
Qed.

Lemma urlAt_Some (s t s' : list N) :
  urlAt s = Some (t, s') → t ≠ [] ∧ s = t ++ s'.
Proof.
  unfold urlAt. intros Hs.
  assert (∀ p, p ≠ [] →
    match stripPrefix p s with
    | Some t0 =>
        match takeWhile urlChar t0 with
        | [] => None
        | u => Some (p ++ u, dropWhile urlChar t0)
        end
    | None => None
    end = Some (t, s') → t ≠ [] ∧ s = t ++ s') as Hp.
  { intros p Hp Heq. destruct (stripPrefix p s) as [t0|] eqn:H0; [|discriminate].
    apply stripPrefix_Some in H0 as ->.
    pose proof (takeWhile_dropWhile urlChar t0) as Htd.
    destruct (takeWhile urlChar t0) as [|ch u]; [discriminate|].
    injection Heq as <- <-. split.
    - destruct p; [done | discriminate].
    - by rewrite <- app_assoc, Htd. }
  match type of Hs with
  | match ?a with _ => _ end = _ => destruct a as [tok|] eqn:Ha
  end.
  - injection Hs as ->. by eapply Hp in Ha.
  - by eapply Hp in Hs.
Qed.

Lemma targetAt_Some (s u s' : list N) :
  targetAt s = Some (u, s') → u ≠ [] ∧ s = lit "[[" ++ u ++ s'.
Proof.
  unfold targetAt. intros Hs.
  destruct (stripPrefix (lit "[[") s) as [t|] eqn:Ht; [|discriminate].
  apply stripPrefix_Some in Ht as ->.
  pose proof (takeWhile_dropWhile linkChar t) as Htd.
  destruct (takeWhile linkChar t) as [|ch u0]; [discriminate|].
  injection Hs as <- <-. split; [done | by rewrite Htd].
Qed.

(** *** [String.prototype.match] with the URL pattern *)

Lemma matchLoop_urlRegex (fuel i : nat) (s : list N) :
  length s < fuel →
  ∃ l, matchLoop fuel urlRegex i s = Some l ∧ Tokens urlAt s l.
Proof.
  revert i s. induction fuel as [|fuel IH]; intros i s Hlen; [lia|].
  cbn [matchLoop].
  destruct (RegExpBuiltinExec urlRegex i s) as [res|] eqn:He.
  - eapply (RegExpBuiltinExec_Some urlRegex urlAt
              (λ i t s', mkResult i (i + length t) t None s')) in He
      as (j & t & s0 & s' & -> & H0 & Hs' & Htok).
    + cbn [m0 after lastIndex].
      destruct (IH (j + length t) s') as (l & -> & Hl); [lia|].
      exists (t :: l). split; [|by apply Htok].
      apply urlAt_Some in H0 as [Hne _].
      destruct t as [|ch t]; [done | reflexivity].
    + intros i0 s0. rewrite matchAt_urlRegex. by destruct (urlAt s0) as [[??]|].
    + intros s0 t0 s0' H0. apply urlAt_Some in H0 as [Hne ->].
      rewrite length_app. destruct t0; [done | simpl; lia].
  - exists []. split; [reflexivity|].
    eapply (RegExpBuiltinExec_None urlRegex urlAt
              (λ i t s', mkResult i (i + length t) t None s')); [|exact He].
    intros i0 s0. rewrite matchAt_urlRegex. by destruct (urlAt s0) as [[??]|].
Qed.

(** *** The [exec] loop with the link pattern *)

Lemma execLoop_targets (fuel i : nat) (s : list N)
    (links : gset (option (list N))) :
  length s < fuel →
  ∃ l, execLoop fuel i s links = Some (list_to_set (Some <$> l) ∪ links) ∧
       Tokens targetAt s l.
Proof.
  revert i s links. induction fuel as [|fuel IH]; intros i s links Hlen; [lia|].
  cbn [execLoop].
  destruct (RegExpBuiltinExec wikilinkRegex i s) as [res|] eqn:He.
  - eapply (RegExpBuiltinExec_Some wikilinkRegex targetAt
              (λ i u s', mkResult i (i + 2 + length u) (lit "[[" ++ u) (Some u) s')) in He
      as (j & u & s0 & s' & -> & H0 & Hs' & Htok).
    + cbn [m1 after lastIndex].
      destruct (IH (j + 2 + length u) s' ({[Some u]} ∪ links)) as (l & -> & Hl); [lia|].
      exists (u :: l). split; [|by apply Htok].
      f_equal. rewrite fmap_cons, list_to_set_cons. set_solver.
    + intros i0 s0. rewrite matchAt_wikilinkRegex. by destruct (targetAt s0) as [[??]|].
    + intros s0 t0 s0' H0. apply targetAt_Some in H0 as [Hne ->].
      rewrite !length_app. simpl. lia.
  - exists []. split; [f_equal; set_solver|].
    eapply (RegExpBuiltinExec_None wikilinkRegex targetAt
              (λ i u s', mkResult i (i + 2 + length u) (lit "[[" ++ u) (Some u) s'));
      [|exact He].
    intros i0 s0. rewrite matchAt_wikilinkRegex. by destruct (targetAt s0) as [[??]|].
Qed.

(** *** Sets of strings *)

Lemma size_list_to_set_remove_dups `{Countable A} (l : list A) :
  size (list_to_set l : gset A) = length (remove_dups l).
Proof.
  rewrite <- (size_list_to_set (C := gset A) (remove_dups l))
    by apply NoDup_remove_dups.
  f_equal. apply set_eq. intros x.
  by rewrite !elem_of_list_to_set, elem_of_remove_dups.
Qed.

Lemma size_list_to_set_Some `{Countable A} (l : list A) :
  size (list_to_set (Some <$> l) : gset (option A)) = length (remove_dups l).
Proof.
  rewrite <- (length_fmap Some (remove_dups l)).
  rewrite <- (size_list_to_set (C := gset (option A)) (Some <$> remove_dups l)).
  - f_equal. apply set_eq. intros x.
    rewrite !elem_of_list_to_set, !list_elem_of_fmap.
    by setoid_rewrite elem_of_remove_dups.
  - apply (NoDup_fmap_2 _), NoDup_remove_dups.
Qed.

(** ** The extractor as a function of the tokens *)

Lemma scanFuel_tokens (fuel : nat) (text : list N) :
  length text < fuel →
  ∃ us ts, Tokens urlAt text us ∧ Tokens targetAt text ts ∧
    scanFuel fuel text =
      Some (mkStats (length (remove_dups us)) (length (remove_dups ts))).
Proof.
  intros Hlen. unfold scanFuel, String_match.
  destruct (matchLoop_urlRegex fuel 0 text Hlen) as (us & -> & Hus).
  destruct (execLoop_targets fuel 0 text ∅ Hlen) as (ts & -> & Hts).
  exists us, ts. split_and!; [done..|]. cbn [mbind option_bind].
  f_equal. f_equal.
  - rewrite <- size_list_to_set_remove_dups. by destruct us.
  - rewrite <- size_list_to_set_Some. f_equal. set_solver.
Qed.

Lemma stripPrefix_length (p s t : list N) :
  stripPrefix p s = Some t → length t ≤ length s.
Proof. intros ->%stripPrefix_Some. rewrite length_app. lia. Qed.

Lemma afterDashes_length (s r : list N) :
  afterDashes s = Some r → length r ≤ length s.
Proof.
  induction s as [|ch s IH]; cbn [afterDashes].
  - destruct (stripPrefix (lit "---") []) eqn:Hp; [|discriminate].
    intros [= <-]. by apply stripPrefix_length in Hp.
  - destruct (stripPrefix (lit "---") (ch :: s)) eqn:Hp.
    + intros [= <-]. by apply stripPrefix_length in Hp.
    + intros Hr%IH. simpl. lia.
Qed.

Lemma dropNewline_length (s : list N) : length (dropNewline s) ≤ length s.
Proof.
  destruct s as [|ch s]; [done|]. cbn [dropNewline].
  destruct (N.eqb 10 ch); simpl; lia.
Qed.

Lemma stripBlock_length (content : list N) :
  length (stripBlock content) ≤ length content.
Proof.
  unfold stripBlock.
  destruct (stripPrefix (lit "---") content) as [t|] eqn:Hp; [|done].
  destruct (afterDashes t) as [r|] eqn:Hr; [|done].
  apply stripPrefix_length in Hp. apply afterDashes_length in Hr.
  pose proof (dropNewline_length r). lia.
Qed.

(** With fuel beyond the length of the input both loops run to their
    end, and more fuel changes nothing. *)
Lemma scanFuel_terminates (fuel : nat) (text : list N) :
  length text < fuel → scanFuel fuel text = Some (scan text).
Proof.
  intros Hlen. unfold scan.
  destruct (scanFuel_tokens fuel text Hlen) as (us & ts & Hus & Hts & ->).
  destruct (scanFuel_tokens (S (length text)) text) as (us' & ts' & Hus' & Hts' & ->);
    [lia|].
  rewrite (Tokens_functional _ _ _ _ Hus Hus'), (Tokens_functional _ _ _ _ Hts Hts').
  reflexivity.
Qed.

Lemma calculateStats_terminates (fuel : nat) (content : list N) :
  length content < fuel →
  calculateStatsFuel fuel content = Some (calculateStats content).
Proof.
  intros Hlen. unfold calculateStats, calculateStatsFuel.
  pose proof (stripBlock_length content) as Hs.
  rewrite <- contentWithoutFrontmatter_stripBlock in Hs.
  rewrite !scanFuel_terminates by lia. reflexivity.
Qed.

Lemma calculateStats_scan (content : list N) :
  calculateStats content = scan (stripBlock content).
Proof.
  unfold calculateStats, calculateStatsFuel.
  pose proof (stripBlock_length content) as Hs.
  rewrite contentWithoutFrontmatter_stripBlock.
  rewrite scanFuel_terminates by lia. reflexivity.
Qed.

(** ** The frontmatter block *)

(** C1, as stated, fails: the text [--- https://a.example/x ---] has no
    line that is [---] alone, so the specification leaves it as it is
    and one URL is to be counted in it; the code removes all of it and
    counts none. *)
Lemma frontmatter_not_line_anchored :
  stripLeadingBlock dashesOnOneLine = dashesOnOneLine ∧
  scan dashesOnOneLine = mkStats 1 0 ∧
  calculateStats dashesOnOneLine = mkStats 0 0 ∧
  calculateStats dashesOnOneLine ≠ scan (stripLeadingBlock dashesOnOneLine).
Proof. vm_compute. split_and!; [reflexivity.. | discriminate]. Qed.

(** In the other direction a block between two [---] lines is not
    removed as a whole when [---] occurs inside it: the removal ends at
    that first occurrence and the URL after it, still inside the block,
    is counted. *)
Lemma frontmatter_ends_at_first_dashes :
  stripLeadingBlock dashesInsideBlock = lit "body" ∧
  contentWithoutFrontmatter dashesInsideBlock =
    lit ("https://a.example/x" +:+ nl +:+ "---" +:+ nl +:+ "body") ∧
  calculateStats dashesInsideBlock = mkStats 1 0.
Proof. vm_compute. split_and!; reflexivity. Qed.

Lemma stripPrefix_dashes_ext (ch : N) (pre r : list N) :
  stripPrefix (lit "---") (ch :: pre ++ lit "--") = None →
  stripPrefix (lit "---") (ch :: pre ++ lit "---" ++ r) = None.
Proof.
  change (lit "---") with [45; 45; 45]%N. change (lit "--") with [45; 45]%N.
  destruct pre as [|b [|c pre]]; cbn [stripPrefix app];
    repeat match goal with
           | |- context [N.eqb 45 ?x] => is_var x; destruct (N.eqb 45 x)
           end; done.
Qed.

Lemma afterDashes_unfold (s : list N) :
  afterDashes s =
  match stripPrefix (lit "---") s with
  | Some r => Some r
  | None => match s with [] => None | _ :: tl => afterDashes tl end
  end.
Proof. destruct s; reflexivity. Qed.

Lemma afterDashes_first (pre r : list N) :
  afterDashes (pre ++ lit "--") = None →
  afterDashes (pre ++ lit "---" ++ r) = Some r.
Proof.
  induction pre as [|ch pre IH]; intros Hn.
  - cbn [app]. by rewrite afterDashes_unfold, stripPrefix_same.
  - revert Hn. rewrite !afterDashes_unfold. cbn [app].
    destruct (stripPrefix (lit "---") (ch :: pre ++ lit "--")) eqn:Hp; [discriminate|].
    intros Hn. rewrite (stripPrefix_dashes_ext _ _ _ Hp). by apply IH.
Qed.

(** When the two delimiters are lines of their own and [---] does not
    occur before the closing one, exactly the block and its newline are
    removed. *)
Lemma stripBlock_delimited (body rest : list N) :
  afterDashes (10%N :: body ++ 10%N :: lit "--") = None →
  stripBlock (lit "---" ++ 10%N :: body ++ 10%N :: lit "---" ++ 10%N :: rest) = rest.
Proof.
  intros Hn. unfold stripBlock. rewrite stripPrefix_same.
  replace (10%N :: body ++ 10%N :: lit "---" ++ 10%N :: rest)
    with ((10%N :: body ++ [10%N]) ++ lit "---" ++ 10%N :: rest)
    by (simpl; by rewrite <- app_assoc).
  rewrite afterDashes_first; [reflexivity|].
  simpl. by rewrite <- app_assoc.
Qed.

(** C1, amended: what is removed is the prefix from the [---] the text
    starts with up to the first later [---], wherever on a line either
    of them stands, and one newline after it; the counts are those of
    the text that is left.  A text that does not start with [---], or
    in which no [---] follows, is counted as it is; a block between two
    lines that are [---] alone, with no [---] before the closing line,
    is removed exactly. *)
Theorem calculateStats_strips_to_first_dashes (content : list N) :
  contentWithoutFrontmatter content = stripBlock content ∧
  calculateStats content = scan (stripBlock content) ∧
  (stripPrefix (lit "---") content = None → calculateStats content = scan content) ∧
  (∀ t, content = lit "---" ++ t → afterDashes t = None →
        calculateStats content = scan content) ∧
  (∀ t r, content = lit "---" ++ t → afterDashes t = Some r →
        calculateStats content = scan (dropNewline r)) ∧
  (∀ body rest,
     content = lit "---" ++ 10%N :: body ++ 10%N :: lit "---" ++ 10%N :: rest →
     afterDashes (10%N :: body ++ 10%N :: lit "--") = None →
     calculateStats content = scan rest).
Proof.
  split_and!.
  - apply contentWithoutFrontmatter_stripBlock.
  - apply calculateStats_scan.
  - intros Hp. rewrite calculateStats_scan. unfold stripBlock. by rewrite Hp.
  - intros t -> Ht. rewrite calculateStats_scan. unfold stripBlock.
    by rewrite stripPrefix_same, Ht.
  - intros t r -> Ht. rewrite calculateStats_scan. unfold stripBlock.
    by rewrite stripPrefix_same, Ht.
  - intros body rest -> Hn. by rewrite calculateStats_scan, stripBlock_delimited.
Qed.

Lemma calculateStats_strips_to_first_dashes_witness :
  calculateStats withFrontmatter = scan (lit "[[b]]").
Proof.
  apply (calculateStats_strips_to_first_dashes withFrontmatter)
    with (t := lit (nl +:+ "a: https://a.example" +:+ nl +:+ "---" +:+ nl +:+ "[[b]]"))
         (r := lit (nl +:+ "[[b]]")); reflexivity.
Defined.

(** ** Counting *)

Ltac tokens :=
  repeat first
    [ eapply Tokens_take; [reflexivity|]
    | apply Tokens_skip; [reflexivity|]
    | apply Tokens_end; reflexivity ].

(** The counts are the numbers of distinct URLs and of distinct link
    targets among the tokens of the text that is left. *)
Lemma calculateStats_distinct (content : list N) (us ts : list (list N)) :
  Tokens urlAt (contentWithoutFrontmatter content) us →
  Tokens targetAt (contentWithoutFrontmatter content) ts →
  calculateStats content = mkStats (length (remove_dups us)) (length (remove_dups ts)).
Proof.
  intros Hus Hts.
  pose proof (stripBlock_length content) as Hlen.
  rewrite <- contentWithoutFrontmatter_stripBlock in Hlen.
  unfold calculateStats, calculateStatsFuel.
  destruct (scanFuel_tokens (S (length content)) (contentWithoutFrontmatter content))
    as (us' & ts' & Hus' & Hts' & ->); [lia|].
  rewrite (Tokens_functional _ _ _ _ Hus Hus'), (Tokens_functional _ _ _ _ Hts Hts').
  reflexivity.
Qed.

Lemma calculateStats_tokens (content : list N) :
  ∃ us ts,
    Tokens urlAt (contentWithoutFrontmatter content) us ∧
    Tokens targetAt (contentWithoutFrontmatter content) ts ∧
    calculateStats content = mkStats (length (remove_dups us)) (length (remove_dups ts)).
Proof.
  destruct (scanFuel_tokens (S (length (contentWithoutFrontmatter content)))
              (contentWithoutFrontmatter content)) as (us & ts & Hus & Hts & _); [lia|].
  exists us, ts. split_and!; [done..|]. by apply calculateStats_distinct.
Qed.

Lemma remove_dups_pair `{EqDecision A} (u v : A) :
  length (remove_dups [u; v]) = if decide (u = v) then 1 else 2.
Proof.
  cbn [remove_dups].
  destruct (decide (u = v)) as [->|Hne];
    destruct (decide_rel elem_of _ [v]) as [Hin|Hnin]; try reflexivity.
  - exfalso. apply Hnin. left.
  - by apply list_elem_of_singleton in Hin.
Qed.

(** C3: the URL count is the size of the set of the matched substrings,
    the tokens [http://] or [https://] followed by the longest run of
    characters other than white space, [)], []] and [>]; the set holds
    a string once however often it is matched, so that of two matches
    the same string counts once and two different strings count as
    two, as do [http://x] and [http://x/], and [http://x] and
    [http://X]. *)
Theorem url_count_is_size_of_match_set (content : list N) :
  (∃ us : list (list N),
     Tokens urlAt (contentWithoutFrontmatter content) us ∧
     urls (calculateStats content) = size (list_to_set us : gset (list N)) ∧
     urls (calculateStats content) = length (remove_dups us) ∧
     (∀ u v, us = [u; v] →
        urls (calculateStats content) = if decide (u = v) then 1 else 2)) ∧
  urls (calculateStats (lit "http://x and http://x")) = 1 ∧
  urls (calculateStats (lit "http://x and http://x/")) = 2 ∧
  urls (calculateStats (lit "http://x and http://X")) = 2.
Proof.
  split_and!; [|vm_compute; reflexivity..].
  destruct (calculateStats_tokens content) as (us & ts & Hus & Hts & ->).
  exists us. cbn [urls]. split_and!.
  - done.
  - by rewrite size_list_to_set_remove_dups.
  - reflexivity.
  - intros u v ->. apply remove_dups_pair.
Qed.

(** The scheme is matched in lower case only, and a scheme with
    nothing after it is no URL. *)
Example url_scheme_examples :
  urls (calculateStats (lit "HTTP://x")) = 0 ∧
  urls (calculateStats (lit "see http:// and https://)")) = 0.
Proof. vm_compute. split; reflexivity. Qed.

Example url_tokens_example :
  Tokens urlAt (lit "(see <https://a.example/x?y=1>) http://b.example")
    [lit "https://a.example/x?y=1"; lit "http://b.example"].
Proof. tokens. Qed.

(** C4: the link count is the size of the set of the base targets,
    each the text between a [[[] and the first []], [|] or [#] after
    it (or the end of the text); [[[Page|Alias]]], [[[Page#Section]]]
    and [[[Page]]] all give the target [Page], whatever follows them,
    and a document with the three has one link. *)
Theorem link_count_is_size_of_target_set (content : list N) :
  (∃ ts : list (list N),
     Tokens targetAt (contentWithoutFrontmatter content) ts ∧
     links (calculateStats content) = size (list_to_set ts : gset (list N)) ∧
     links (calculateStats content) = length (remove_dups ts)) ∧
  (∀ i tail,
     m1 <$> matchAt wikilinkRegex i (lit "[[Page|Alias]]" ++ tail) =
       Some (Some (lit "Page")) ∧
     m1 <$> matchAt wikilinkRegex i (lit "[[Page#Section]]" ++ tail) =
       Some (Some (lit "Page")) ∧
     m1 <$> matchAt wikilinkRegex i (lit "[[Page]]" ++ tail) =
       Some (Some (lit "Page"))) ∧
  Tokens targetAt threePages [lit "Page"; lit "Page"; lit "Page"] ∧
  links (calculateStats threePages) = 1.
Proof.
  split_and!.
  - destruct (calculateStats_tokens content) as (us & ts & Hus & Hts & ->).
    exists ts. cbn [links]. split_and!; [done | | done].
    by rewrite size_list_to_set_remove_dups.
  - intros i tail. rewrite !matchAt_wikilinkRegex. split_and!; reflexivity.
  - tokens.
  - vm_compute. reflexivity.
Qed.

Lemma execLoop_members (fuel i : nat) (s : list N)
    (acc links : gset (option (list N))) :
  execLoop fuel i s acc = Some links →
  ∀ x, x ∈ links → x ∈ acc ∨ ∃ u, x = Some u ∧ u ≠ [].
Proof.
  revert i s acc. induction fuel as [|fuel IH]; intros i s acc; [discriminate|].
  cbn [execLoop].
  destruct (RegExpBuiltinExec wikilinkRegex i s) as [res|] eqn:He.
  - eapply (RegExpBuiltinExec_Some wikilinkRegex targetAt
              (λ i u s', mkResult i (i + 2 + length u) (lit "[[" ++ u) (Some u) s')) in He
      as (j & u & s0 & s' & -> & H0 & Hs' & Htok).
    + cbn [m1 after lastIndex]. intros Hl x Hx.
      destruct (IH _ _ _ Hl x Hx) as [Hacc|Hnew]; [|by right].
      apply elem_of_union in Hacc as [->%elem_of_singleton|Hacc]; [|by left].
      right. exists u. split; [done|]. by apply targetAt_Some in H0 as [? _].
    + intros i0 s0. rewrite matchAt_wikilinkRegex. by destruct (targetAt s0) as [[??]|].
    + intros s0 t0 s0' H0. apply targetAt_Some in H0 as [Hne ->].
      rewrite !length_app. simpl. lia.
  - intros [= <-] x Hx. by left.
Qed.

(** C10: a [[[] with []], [|] or [#] (or nothing) right after it is no
    match, since the capture needs one character at least; the set of
    the targets never holds the empty string, and [[[]]], [[[|Alias]]]
    and [[[#Section]]] count no link. *)
Theorem empty_target_is_no_link (content : list N) :
  (∀ i ch tail, linkChar ch = false →
     matchAt wikilinkRegex i (lit "[[" ++ ch :: tail) = None) ∧
  (∀ i, matchAt wikilinkRegex i (lit "[[") = None) ∧
  (∀ fuel links,
     execLoop fuel 0 (contentWithoutFrontmatter content) ∅ = Some links →
     Some [] ∉ links) ∧
  (∃ ts, Tokens targetAt (contentWithoutFrontmatter content) ts ∧
         ¬ ([] ∈ ts) ∧
         links (calculateStats content) = length (remove_dups ts)) ∧
  links (calculateStats (lit "[[]]")) = 0 ∧
  links (calculateStats (lit "[[|Alias]]")) = 0 ∧
  links (calculateStats (lit "[[#Section]]")) = 0.
Proof.
  split_and!.
  - intros i ch tail Hch. rewrite matchAt_wikilinkRegex. unfold targetAt.
    rewrite stripPrefix_same. cbn [takeWhile]. by rewrite Hch.
  - intros i. reflexivity.
  - intros fuel links Hl Hin.
    destruct (execLoop_members _ _ _ _ _ Hl _ Hin) as [Hacc|(u & [= <-] & Hu)];
      [set_solver | done].
  - destruct (calculateStats_tokens content) as (us & ts & Hus & Hts & ->).
    exists ts. split_and!; [done | | done].
    clear -Hts. induction Hts as [| |s t s' l Ht Hts IH].
    + by intros ?%elem_of_nil.
    + done.
    + intros [<-|Hin]%elem_of_cons; [|done].
      by apply targetAt_Some in Ht as [? _].
  - vm_compute. reflexivity.
  - vm_compute. reflexivity.
  - vm_compute. reflexivity.
Qed.

Lemma empty_target_is_no_link_witness :
  Some [] ∉ (∅ : gset (option (list N))).
Proof.
  apply (proj1 (proj2 (proj2 (empty_target_is_no_link (lit "[[]]")))) 5 ∅).
  vm_compute. reflexivity.
Defined.

(** ** The formatter *)

Lemma string_of_uint_no_bar (d : Decimal.uint) :
  Forall (λ c, c ≠ 124%N) (lit (NilEmpty.string_of_uint d)).
Proof. induction d; constructor; done. Qed.

Lemma groupDigits_no_bar (k : nat) (ds : list N) :
  Forall (λ c, c ≠ 124%N) ds → Forall (λ c, c ≠ 124%N) (groupDigits k ds).
Proof.
  intros Hds. revert k. induction Hds as [|d ds Hd Hds IH]; intros k; simpl.
  - constructor.
  - destruct k; repeat constructor; auto.
Qed.

(** The en-US rendering of a number has digits and commas only. *)
Lemma en_US_no_bar (n : nat) : 124%N ∉ @toLocaleString en_US n.
Proof.
  unfold toLocaleString, en_US. intros Hin.
  rewrite elem_of_reverse in Hin.
  pose proof (groupDigits_no_bar 3 _
    (proj2 (Forall_reverse _ _) (string_of_uint_no_bar (Nat.to_uint n)))) as Hall.
  rewrite Forall_forall in Hall. by apply Hall in Hin.
Qed.

Lemma contains_bar (s : list N) : contains (lit " | ") s → 124%N ∈ s.
Proof.
  intros (a & b & ->). apply elem_of_app. right.
  change (lit " | ") with [32; 124; 32]%N. set_solver.
Qed.

Lemma segment_no_bar (label : string) (number : list N) :
  124%N ∉ lit label → 124%N ∉ number →
  ¬ contains (lit " | ") (lit label ++ number).
Proof.
  intros Hl Hn Hc%contains_bar. apply elem_of_app in Hc as [?|?]; done.
Qed.

(** C5: the line is the enabled segments in the order URLs, links,
    joined by [" | "]: empty with both toggles off, one segment alone
    with one toggle on, which holds no [" | "] as long as the host
    renders numbers without a [|]. *)
Theorem buildStatsString_segments `{Locale}
    (stats : FileStats) (settings : EOFStatsSettings) :
  (∀ n, 124%N ∉ toLocaleString n) →
  let urlSegment := lit "URLs: " ++ toLocaleString (urls stats) in
  let linkSegment := lit "Links: " ++ toLocaleString (links stats) in
  buildStatsString stats settings =
    Array_join (lit " | ")
      ((if showUrls settings then [urlSegment] else []) ++
       (if showLinks settings then [linkSegment] else [])) ∧
  buildStatsString stats settings =
    match showUrls settings, showLinks settings with
    | false, false => []
    | true, false => urlSegment
    | false, true => linkSegment
    | true, true => urlSegment ++ lit " | " ++ linkSegment
    end ∧
  (showUrls settings ≠ showLinks settings →
   ¬ contains (lit " | ") (buildStatsString stats settings)).
Proof.
  intros Hbar urlSegment linkSegment. unfold buildStatsString, formatNumber.
  split_and!.
  - by destruct (showUrls settings), (showLinks settings).
  - by destruct (showUrls settings), (showLinks settings).
  - destruct (showUrls settings), (showLinks settings); intros Hne; try done;
      cbn [app Array_join]; apply segment_no_bar; try apply Hbar;
      apply (bool_decide_unpack _); exact I.
Qed.

Lemma buildStatsString_segments_witness :
  (∀ n, 124%N ∉ @toLocaleString en_US n) ∧
  @buildStatsString en_US (mkStats 1234 3) DEFAULT_SETTINGS =
    lit "URLs: 1,234 | Links: 3" ∧
  ¬ contains (lit " | ")
      (@buildStatsString en_US (mkStats 1234 3)
         (mkSettings false true [] [] [])).
Proof.
  split; [exact en_US_no_bar|].
  pose proof (buildStatsString_segments (H := en_US) (mkStats 1234 3)
                DEFAULT_SETTINGS en_US_no_bar) as (_ & H2 & _).
  pose proof (buildStatsString_segments (H := en_US) (mkStats 1234 3)
                (mkSettings false true [] [] []) en_US_no_bar) as (_ & _ & H3).
  split; [exact H2 | apply H3; discriminate].
Defined.

(** C2: for the document of the first scenario, the frontmatter
    [title: Test] and the two lines with [https://a.example/x] twice
    and the links [Note A], [Note A|alias] and [Note B], the counts are
    one URL and two links, the distinct targets being [Note A] and
    [Note B], and the line with both toggles on reads
    [URLs: 1 | Links: 2] wherever the host renders the numbers 1 and 2
    as the digits [1] and [2]. *)
Theorem scenario1_counts_and_line `{Locale} (settings : EOFStatsSettings) :
  toLocaleString 1 = lit "1" → toLocaleString 2 = lit "2" →
  showUrls settings = true → showLinks settings = true →
  calculateStats scenario1 = mkStats 1 2 ∧
  (∀ fuel, length scenario1 < fuel →
     calculateStatsFuel fuel scenario1 = Some (mkStats 1 2)) ∧
  (∃ ts, Tokens targetAt (contentWithoutFrontmatter scenario1) ts ∧
         remove_dups ts = [lit "Note A"; lit "Note B"]) ∧
  buildStatsString (calculateStats scenario1) settings = lit "URLs: 1 | Links: 2".
Proof.
  intros H1 H2 Hu Hl.
  assert (calculateStats scenario1 = mkStats 1 2) as Hstats
    by (vm_compute; reflexivity).
  split_and!.
  - exact Hstats.
  - intros fuel Hfuel. by rewrite calculateStats_terminates.
  - exists [lit "Note A"; lit "Note A"; lit "Note B"]. split.
    + rewrite contentWithoutFrontmatter_stripBlock.
      change (stripBlock scenario1) with
        (lit ("See https://a.example/x and https://a.example/x again." +:+ nl +:+
              "Also [[Note A]] and [[Note A|alias]] and [[Note B]].")).
      tokens.
    + vm_compute. reflexivity.
  - rewrite Hstats. unfold buildStatsString, formatNumber.
    rewrite Hu, Hl. cbn [urls links app Array_join]. rewrite H1, H2. reflexivity.
Qed.

Lemma scenario1_counts_and_line_witness :
  @toLocaleString en_US 1 = lit "1" ∧ @toLocaleString en_US 2 = lit "2" ∧
  calculateStats scenario1 = mkStats 1 2 ∧
  @buildStatsString en_US (calculateStats scenario1) DEFAULT_SETTINGS =
    lit "URLs: 1 | Links: 2".
Proof.
  pose proof (scenario1_counts_and_line (H := en_US) DEFAULT_SETTINGS
                eq_refl eq_refl eq_refl eq_refl) as (H1 & _ & _ & H4).
  split_and!; [reflexivity | reflexivity | exact H1 | exact H4].
Defined.

(** ** The live editor field *)

Lemma fresh_settings_unused (w : World) : heap w !! fresh (dom (heap w)) = None.
Proof. apply not_elem_of_dom, is_fresh. Qed.

Lemma buildEOFDecoration_Some (content : list N) (settings : positive)
    (w : World) (values : EOFStatsSettings) :
  heap w !! settings = Some values →
  buildEOFDecoration content settings w =
    Some ([(length content,
            mkDecoration (mkWidget (calculateStats content) (fresh (dom (heap w)))) 1 true)],
          mkWorld (<[fresh (dom (heap w)) := values]> (heap w)) (content :: statsRuns w)).
Proof. intros Hv. unfold buildEOFDecoration. by rewrite Hv. Qed.

(** C6: a transaction that leaves the document as it is maps the
    decorations through its changes and nothing else, no statistics are
    computed and the world stays as it is; a transaction that changes
    the document runs [calculateStats] on the new text, and the new
    decoration, whose element is built from these statistics and the
    settings, stands at the length of the new document. *)
Theorem update_step `{Locale} `{CodeMirror} (plugin : EOFStatsPlugin)
    (decorations : DecorationSet) (tr : Transaction) (w : World)
    (values : EOFStatsSettings) :
  heap w !! plugin_settings plugin = Some values →
  if docChanged tr then
    ∃ settingsCopy,
      let widget := mkWidget (calculateStats (state_doc tr)) settingsCopy in
      let w' := mkWorld (<[settingsCopy := values]> (heap w))
                  (state_doc tr :: statsRuns w) in
      heap w !! settingsCopy = None ∧
      update plugin decorations tr w =
        Some ([(length (state_doc tr), mkDecoration widget 1 true)], w') ∧
      toDOM w' widget =
        Some (createEOFStatsElement (calculateStats (state_doc tr)) values)
  else
    update plugin decorations tr w =
      Some (RangeSet_map (changes tr) decorations, w).
Proof.
  intros Hv. unfold update. destruct (docChanged tr); cbn [negb]; [|reflexivity].
  exists (fresh (dom (heap w))). cbv zeta. split_and!.
  - apply fresh_settings_unused.
  - by apply buildEOFDecoration_Some.
  - unfold toDOM. cbn [heap Live.settings stats]. by rewrite lookup_insert_eq.
Qed.

Lemma update_step_witness :
  heap sampleWorld !! plugin_settings samplePlugin = Some DEFAULT_SETTINGS ∧
  @update noChanges samplePlugin []
    (@mkTransaction noChanges false () (lit "a")) sampleWorld =
  Some ([], sampleWorld).
Proof.
  split; [reflexivity|].
  exact (@update_step en_US noChanges samplePlugin []
           (@mkTransaction noChanges false () (lit "a"))
           sampleWorld DEFAULT_SETTINGS eq_refl).
Defined.

(** X21: over a whole session the statistics have been computed once
    for every transaction that changed the document, on its new text
    and in the order of the transactions, and never for another
    transaction. *)
Lemma dispatchAll_statsRuns `{CodeMirror} (plugin : EOFStatsPlugin)
    (decorations : DecorationSet) (trs : list Transaction) (w : World)
    (values : EOFStatsSettings) :
  heap w !! plugin_settings plugin = Some values →
  ∃ decorations' w',
    dispatchAll plugin decorations trs w = Some (decorations', w') ∧
    statsRuns w' =
      reverse (state_doc <$> filter (λ tr, docChanged tr = true) trs) ++ statsRuns w.
Proof.
  revert decorations w. induction trs as [|tr trs IH]; intros decorations w Hv.
  - exists decorations, w. split; reflexivity.
  - cbn [dispatchAll]. unfold update.
    destruct (docChanged tr) eqn:Hc; cbn [negb].
    + rewrite (buildEOFDecoration_Some _ _ _ _ Hv).
      edestruct IH as (d' & w' & -> & Hruns).
      { cbn [heap]. rewrite lookup_insert_ne; [exact Hv|].
        intros Heq. pose proof (fresh_settings_unused w) as Hf.
        rewrite Heq in Hf. congruence. }
      exists d', w'. split; [reflexivity|].
      rewrite Hruns. cbn [statsRuns]. rewrite filter_cons_True by done.
      rewrite fmap_cons, reverse_cons, <- app_assoc. reflexivity.
    + edestruct IH as (d' & w' & -> & Hruns); [exact Hv|].
      exists d', w'. split; [reflexivity|].
      rewrite Hruns. rewrite filter_cons_False by (rewrite Hc; done). reflexivity.
Qed.

Lemma eqSettings_true (a b : EOFStatsSettings) :
  eqSettings a b = true ↔
  showUrls a = showUrls b ∧ showLinks a = showLinks b ∧
  statsColor a = statsColor b ∧ lineColor a = lineColor b ∧
  eofColor a = eofColor b.
Proof.
  unfold eqSettings.
  rewrite !andb_true_iff, !Bool.eqb_true_iff, !bool_decide_eq_true.
  naive_solver.
Qed.

(** C9: the widget that [buildEOFDecoration] makes refers to a settings
    object of its own, with the values of the moment, and an assignment
    to a field of the shared settings afterwards changes neither what
    the widget reads nor its element; [eq] reads the settings through
    the two references and is true exactly when the two counts and the
    five settings fields have equal values, whichever references the
    widgets hold. *)
Theorem widget_settings_copied_and_compared_by_value `{Locale} :
  (∀ content plugin w values,
     heap w !! plugin_settings plugin = Some values →
     ∃ widget w',
       buildEOFDecoration content (plugin_settings plugin) w =
         Some ([(length content, mkDecoration widget 1 true)], w') ∧
       Live.settings widget ≠ plugin_settings plugin ∧
       heap w' !! Live.settings widget = Some values ∧
       ∀ f, heap (assign f plugin w') !! Live.settings widget = Some values ∧
            toDOM (assign f plugin w') widget = toDOM w' widget) ∧
  (∀ w a b sa sb,
     heap w !! Live.settings a = Some sa →
     heap w !! Live.settings b = Some sb →
     (Live.eq w a b = Some true ↔
        urls (stats a) = urls (stats b) ∧ links (stats a) = links (stats b) ∧
        showUrls sa = showUrls sb ∧ showLinks sa = showLinks sb ∧
        statsColor sa = statsColor sb ∧ lineColor sa = lineColor sb ∧
        eofColor sa = eofColor sb)).
Proof.
  split.
  - intros content plugin w values Hv.
    pose proof (fresh_settings_unused w) as Hf.
    assert (fresh (dom (heap w)) ≠ plugin_settings plugin) as Hne
      by (intros Heq; rewrite Heq in Hf; congruence).
    eexists _, _. split; [by apply buildEOFDecoration_Some|].
    cbn [Live.settings heap]. split_and!.
    + exact Hne.
    + apply lookup_insert_eq.
    + intros f.
      assert (heap (assign f plugin
                (mkWorld (<[fresh (dom (heap w)) := values]> (heap w))
                   (content :: statsRuns w))) !! fresh (dom (heap w)) = Some values)
        as Hread.
      { unfold assign. cbn [heap]. rewrite lookup_alter_ne by done.
        apply lookup_insert_eq. }
      split; [exact Hread|].
      unfold toDOM. cbn [Live.settings stats]. rewrite Hread.
      cbn [heap]. by rewrite lookup_insert_eq.
  - intros w a b sa sb Ha Hb. unfold Live.eq. rewrite Ha, Hb.
    cbn [mbind option_bind]. split.
    + intros [= Heq]. apply andb_true_iff in Heq as [Heq Hs].
      apply andb_true_iff in Heq as [Hu Hl].
      apply Nat.eqb_eq in Hu, Hl. apply eqSettings_true in Hs. naive_solver.
    + intros (Hu & Hl & Hs). f_equal.
      rewrite !andb_true_iff, !Nat.eqb_eq, eqSettings_true. naive_solver.
Qed.

Lemma widget_settings_copied_and_compared_by_value_witness :
  heap sampleWorld !! plugin_settings samplePlugin = Some DEFAULT_SETTINGS ∧
  ∃ widget w',
    buildEOFDecoration (lit "a") (plugin_settings samplePlugin) sampleWorld =
      Some ([(1, mkDecoration widget 1 true)], w') ∧
    heap (assign (λ s, mkSettings false (showLinks s) (statsColor s)
                         (lineColor s) (eofColor s)) samplePlugin w')
      !! Live.settings widget = Some DEFAULT_SETTINGS.
Proof.
  split; [reflexivity|].
  destruct (proj1 (@widget_settings_copied_and_compared_by_value en_US)
              (lit "a") samplePlugin sampleWorld DEFAULT_SETTINGS eq_refl)
    as (widget & w' & Hb & _ & _ & Hf).
  exists widget, w'. split; [exact Hb | apply Hf].
Defined.

(** X19: in the earlier revision ([src/main.ts]) the widget holds the
    shared settings object itself: an assignment afterwards changes
    what the widget reads, and the old widget and the one built after
    the assignment always agree on the settings. *)
Lemma Legacy_widget_shares_settings (content : list N) (plugin : EOFStatsPlugin)
    (w : World) (values : EOFStatsSettings)
    (f : EOFStatsSettings → EOFStatsSettings) :
  heap w !! plugin_settings plugin = Some values →
  ∃ old w1 new w2,
    Legacy.buildEOFDecoration content (plugin_settings plugin) w =
      Some ([(length content, mkDecoration old 1 true)], w1) ∧
    Legacy.buildEOFDecoration content (plugin_settings plugin) (assign f plugin w1) =
      Some ([(length content, mkDecoration new 1 true)], w2) ∧
    heap w2 !! Live.settings old = Some (f values) ∧
    Live.eq w2 old new = Some true.
Proof.
  intros Hv. eexists _, _, _, _. split; [reflexivity|]. split; [reflexivity|].
  cbn [Live.settings heap assign].
  assert (alter f (plugin_settings plugin) (heap w) !! plugin_settings plugin
          = Some (f values)) as Hread by (by rewrite lookup_alter_eq, Hv).
  split; [exact Hread|].
  unfold Live.eq. cbn [Live.settings stats heap]. rewrite Hread.
  cbn [mbind option_bind]. f_equal.
  rewrite !andb_true_iff, !Nat.eqb_eq, eqSettings_true. naive_solver.
Qed.

(** X18: with the copy, the widget built after an assignment that
    changes a value of the shared settings is not [eq] to the one built
    before it, so the change is never mistaken for no change. *)
Lemma eq_detects_settings_change (content : list N) (plugin : EOFStatsPlugin)
    (w : World) (values : EOFStatsSettings)
    (f : EOFStatsSettings → EOFStatsSettings) :
  heap w !! plugin_settings plugin = Some values →
  f values ≠ values →
  ∃ old w1 new w2,
    buildEOFDecoration content (plugin_settings plugin) w =
      Some ([(length content, mkDecoration old 1 true)], w1) ∧
    buildEOFDecoration content (plugin_settings plugin) (assign f plugin w1) =
      Some ([(length content, mkDecoration new 1 true)], w2) ∧
    Live.eq w2 old new = Some false.
Proof.
  intros Hv Hf.
  pose proof (fresh_settings_unused w) as Hfresh.
  set (l1 := fresh (dom (heap w))) in *.
  assert (l1 ≠ plugin_settings plugin) as Hne
    by (intros Heq; rewrite Heq in Hfresh; congruence).
  set (w1 := mkWorld (<[l1 := values]> (heap w)) (content :: statsRuns w)).
  assert (heap (assign f plugin w1) !! plugin_settings plugin = Some (f values))
    as Hps.
  { unfold assign, w1. cbn [heap]. rewrite lookup_alter_eq.
    rewrite lookup_insert_ne by done. by rewrite Hv. }
  assert (heap (assign f plugin w1) !! l1 = Some values) as Hl1.
  { unfold assign, w1. cbn [heap]. rewrite lookup_alter_ne by done.
    apply lookup_insert_eq. }
  exists (mkWidget (calculateStats content) l1), w1.
  remember (assign f plugin w1) as w1' eqn:Hw1'.
  pose proof (fresh_settings_unused w1') as Hfresh2.
  assert (fresh (dom (heap w1')) ≠ l1) as Hne2
    by (intros Heq; rewrite Heq in Hfresh2; congruence).
  eexists _, _.
  split; [by apply buildEOFDecoration_Some|].
  split; [by apply buildEOFDecoration_Some|].
  unfold Live.eq. cbn [Live.settings stats heap].
  rewrite lookup_insert_eq. rewrite lookup_insert_ne by exact Hne2. rewrite Hl1.
  cbn [mbind option_bind]. f_equal.
  destruct (eqSettings values (f values)) eqn:He.
  - apply eqSettings_true in He as (E1 & E2 & E3 & E4 & E5).
    exfalso. apply Hf. clear -E1 E2 E3 E4 E5.
    generalize dependent (f values). intros v2.
    destruct values, v2; simpl; congruence.
  - by rewrite andb_false_r.
Qed.

(** ** The reading view *)

Lemma appendChild_neq (el child : HTMLElement) : appendChild el child ≠ el.
Proof.
  intros Heq. apply (f_equal (λ e, length (children e))) in Heq.
  unfold appendChild in Heq. cbn [children] in Heq.
  rewrite length_app in Heq. simpl in Heq. lia.
Qed.

Lemma String_split_length (sep : N) (s : list N) :
  length (String_split sep s) = S (length (filter (λ ch, ch = sep) s)).
Proof.
  induction s as [|ch s IH]; [reflexivity|]. cbn [String_split].
  destruct (N.eqb_spec ch sep) as [->|Hne].
  - rewrite filter_cons_True by done. simpl. by rewrite IH.
  - rewrite filter_cons_False by done.
    destruct (String_split sep s); [discriminate IH | exact IH].
Qed.

(** The index of the last line is the number of newlines. *)
Lemma lastLineIndex_newlines (content : list N) :
  lastLineIndex content = Z.of_nat (length (filter (λ ch, ch = 10%N) content)).
Proof. unfold lastLineIndex. rewrite String_split_length. lia. Qed.

(** C7: for a fragment with section information whose file is found and
    read, the footer made from the content just read is appended
    exactly when the end line of the fragment is at or after the index
    of the last line of that content; otherwise the fragment is left as
    it is. *)
Theorem footer_on_last_section_only `{Locale} (vault : Vault)
    (settings : EOFStatsSettings) (el : HTMLElement)
    (ctx : MarkdownPostProcessorContext) (sectionInfo : SectionInfo)
    (path : string) (content : list N) :
  getSectionInfo ctx = Some sectionInfo →
  getAbstractFileByPath vault (sourcePath ctx) = Some (TFile path) →
  cachedRead vault (TFile path) = Some content →
  let out := addEOFToReadingView vault settings el ctx in
  let footer := createEOFStatsElement (calculateStats content) settings in
  let last := Z.of_nat (length (filter (λ ch, ch = 10%N) content)) in
  (fragment out = appendChild el footer ↔ (last ≤ lineEnd sectionInfo)%Z) ∧
  (fragment out = el ↔ (lineEnd sectionInfo < last)%Z) ∧
  unhandledRejection out = false.
Proof.
  intros Hs Hf Hr out footer last. subst out footer last.
  unfold addEOFToReadingView. rewrite Hs, Hf, Hr, lastLineIndex_newlines.
  destruct (Z.leb_spec (Z.of_nat (length (filter (λ ch, ch = 10%N) content)))
              (lineEnd sectionInfo)) as [Hle|Hlt]; cbn [fragment unhandledRejection].
  - split_and!; [done | | done]. split; [|lia].
    intros Heq. by apply appendChild_neq in Heq.
  - split_and!; [| done | done]. split; [|lia].
    intros Heq. symmetry in Heq. by apply appendChild_neq in Heq.
Qed.

Lemma footer_on_last_section_only_witness :
  fragment (@addEOFToReadingView en_US sampleVault DEFAULT_SETTINGS paragraph
              (mkContext (Some (mkSectionInfo 0 0)) "note.md")) = paragraph.
Proof.
  apply (@footer_on_last_section_only en_US sampleVault DEFAULT_SETTINGS paragraph
           (mkContext (Some (mkSectionInfo 0 0)) "note.md") (mkSectionInfo 0 0)
           "note.md" (lit ("one" +:+ nl +:+ "two")) eq_refl eq_refl eq_refl).
  reflexivity.
Defined.

Example footer_on_last_section :
  fragment (@addEOFToReadingView en_US sampleVault DEFAULT_SETTINGS paragraph
              (mkContext (Some (mkSectionInfo 1 1)) "note.md")) =
  appendChild paragraph
    (@createEOFStatsElement en_US (mkStats 0 0) DEFAULT_SETTINGS).
Proof. vm_compute. reflexivity. Qed.

(** C8: when the file is not found, is not a file, or its read is
    rejected, the call leaves the fragment as it is and no rejection
    without a handler. *)
Theorem unreadable_file_fails_silently `{Locale} (vault : Vault)
    (settings : EOFStatsSettings) (el : HTMLElement)
    (ctx : MarkdownPostProcessorContext) :
  getAbstractFileByPath vault (sourcePath ctx) = None ∨
  (∃ path, getAbstractFileByPath vault (sourcePath ctx) = Some (TFolder path)) ∨
  (∃ file, getAbstractFileByPath vault (sourcePath ctx) = Some file ∧
           cachedRead vault file = None) →
  addEOFToReadingView vault settings el ctx = mkOutcome el false.
Proof.
  intros Hcase. unfold addEOFToReadingView.
  destruct (getSectionInfo ctx); [|reflexivity].
  destruct Hcase as [->|[(path & ->)|(file & -> & Hr)]]; [reflexivity..|].
  destruct file; [by rewrite Hr | reflexivity].
Qed.

Lemma unreadable_file_fails_silently_witness :
  getAbstractFileByPath sampleVault "gone.md" = None ∧
  @addEOFToReadingView en_US sampleVault DEFAULT_SETTINGS paragraph
    (mkContext (Some (mkSectionInfo 0 9)) "gone.md") = mkOutcome paragraph false.
Proof.
  split; [reflexivity|].
  apply (@unreadable_file_fails_silently en_US sampleVault DEFAULT_SETTINGS
           paragraph (mkContext (Some (mkSectionInfo 0 9)) "gone.md")).
  left. reflexivity.
Defined.

(** X20: the earlier revision ([src/main.ts]) has no handler for the
    rejection of the read: when the file is found and its read is
    rejected, the fragment is left as it is and the rejection stays
    without a handler. *)
Lemma Legacy_read_rejection_unhandled
    (footer : FileStats → EOFStatsSettings → HTMLElement) (vault : Vault)
    (settings : EOFStatsSettings) (el : HTMLElement)
    (ctx : MarkdownPostProcessorContext) (sectionInfo : SectionInfo)
    (file : TAbstractFile) :
  getSectionInfo ctx = Some sectionInfo →
  getAbstractFileByPath vault (sourcePath ctx) = Some file →
  cachedRead vault file = None →
  Legacy.addEOFToReadingView footer vault settings el ctx = mkOutcome el true.
Proof.
  intros Hs Hf Hr. unfold Legacy.addEOFToReadingView. by rewrite Hs, Hf, Hr.
Qed.

(** * Further properties *)

Import Store.

(** ** The extractor on any text *)

Lemma takeWhile_Forall (p : N → bool) (s : list N) :
  Forall (λ ch, p ch = true) (takeWhile p s).
Proof.
  induction s as [|ch s IH]; simpl; [constructor|].
  destruct (p ch) eqn:Hp; by constructor.
Qed.

Lemma dropWhile_head (p : N → bool) (s : list N) :
  dropWhile p s = [] ∨ ∃ ch r, dropWhile p s = ch :: r ∧ p ch = false.
Proof.
  induction s as [|ch s IH]; simpl; [by left|].
  destruct (p ch) eqn:Hp; [exact IH | right; eauto].
Qed.

(** What a URL token is: the scheme, then a run of URL characters that
    is not empty and goes as far as it can. *)
Lemma urlAt_shape (s t s' : list N) :
  urlAt s = Some (t, s') →
  ∃ p u, (p = lit "http://" ∨ p = lit "https://") ∧ u ≠ [] ∧
         Forall (λ ch, urlChar ch = true) u ∧ t = p ++ u ∧ s = t ++ s' ∧
         (s' = [] ∨ ∃ ch r, s' = ch :: r ∧ urlChar ch = false).
Proof.
  unfold urlAt. intros Hs.
  assert (∀ p,
    match stripPrefix p s with
    | Some t0 =>
        match takeWhile urlChar t0 with
        | [] => None
        | u => Some (p ++ u, dropWhile urlChar t0)
        end
    | None => None
    end = Some (t, s') →
    ∃ u, u ≠ [] ∧ Forall (λ ch, urlChar ch = true) u ∧ t = p ++ u ∧
         s = t ++ s' ∧ (s' = [] ∨ ∃ ch r, s' = ch :: r ∧ urlChar ch = false)) as Hp.
  { intros p Heq. destruct (stripPrefix p s) as [t0|] eqn:H0; [|discriminate].
    apply stripPrefix_Some in H0 as ->.
    pose proof (takeWhile_dropWhile urlChar t0) as Htd.
    pose proof (takeWhile_Forall urlChar t0) as Hall.
    pose proof (dropWhile_head urlChar t0) as Hhead.
    destruct (takeWhile urlChar t0) as [|ch u]; [discriminate|].
    injection Heq as <- <-. exists (ch :: u).
    split_and!; [done | done | done | by rewrite <- app_assoc, Htd | done]. }
  match type of Hs with
  | match ?a with _ => _ end = _ => destruct a as [tok|] eqn:Ha
  end.
  - injection Hs as ->. apply Hp in Ha as (u & ?). exists (lit "http://"), u. naive_solver.
  - apply Hp in Hs as (u & ?). exists (lit "https://"), u. naive_solver.
Qed.

Lemma Tokens_length_bound {A : Type} (tokenAt : list N → option (A * list N))
    (k : nat) (s : list N) (l : list A) :
  (∀ s t s', tokenAt s = Some (t, s') → k + length s' ≤ length s) →
  Tokens tokenAt s l → k * length l ≤ length s.
Proof.
  intros Hk Hl. induction Hl as [He|ch s l Hn Hl IH|s t s' l Ht Hl IH]; simpl.
  - lia.
  - lia.
  - apply Hk in Ht. lia.
Qed.

Lemma remove_dups_length_le `{EqDecision A} (l : list A) :
  length (remove_dups l) ≤ length l.
Proof.
  induction l as [|x l IH]; simpl; [lia|].
  destruct (decide_rel elem_of x l); simpl; lia.
Qed.

(** X1: a URL takes eight code units at least and a link three, and
    the matches do not overlap, so eight times the URL count and three
    times the link count are at most the length of the document. *)
Theorem counts_bounded_by_length (content : list N) :
  8 * urls (calculateStats content) ≤ length content ∧
  3 * links (calculateStats content) ≤ length content.
Proof.
  destruct (calculateStats_tokens content) as (us & ts & Hus & Hts & ->).
  cbn [urls links].
  pose proof (stripBlock_length content) as Hlen.
  rewrite <- contentWithoutFrontmatter_stripBlock in Hlen.
  pose proof (remove_dups_length_le us). pose proof (remove_dups_length_le ts).
  split.
  - apply (Tokens_length_bound _ 8) in Hus; [lia|].
    intros s t s' (p & u & Hp & Hu & _ & -> & -> & _)%urlAt_shape.
    rewrite !length_app. destruct u; [done|]. destruct Hp as [-> | ->]; simpl; lia.
  - apply (Tokens_length_bound _ 3) in Hts; [lia|].
    intros s t s' [Hne ->]%targetAt_Some.
    rewrite !length_app. destruct t; [done|]. simpl. lia.
Qed.

Lemma afterDashes_Some (s r : list N) :
  afterDashes s = Some r → ∃ pre, s = pre ++ lit "---" ++ r.
Proof.
  induction s as [|ch s IH]; rewrite afterDashes_unfold.
  - destruct (stripPrefix (lit "---") []) eqn:Hp; [|discriminate].
    intros [= <-]. apply stripPrefix_Some in Hp. by exists [].
  - destruct (stripPrefix (lit "---") (ch :: s)) eqn:Hp.
    + intros [= <-]. apply stripPrefix_Some in Hp. by exists [].
    + intros (pre & ->)%IH. by exists (ch :: pre).
Qed.

(** The text that is scanned is the end of the document: nothing but a
    prefix is ever removed. *)
Lemma contentWithoutFrontmatter_suffix (content : list N) :
  ∃ pre, content = pre ++ contentWithoutFrontmatter content.
Proof.
  rewrite contentWithoutFrontmatter_stripBlock. unfold stripBlock.
  destruct (stripPrefix (lit "---") content) as [t|] eqn:Hp; [|by exists []].
  destruct (afterDashes t) as [r|] eqn:Hr; [|by exists []].
  apply stripPrefix_Some in Hp as ->. apply afterDashes_Some in Hr as (pre & ->).
  destruct r as [|ch r]; cbn [dropNewline].
  - exists (lit "---" ++ pre ++ lit "---"). by rewrite <- !app_assoc.
  - destruct (N.eqb_spec 10 ch) as [<-|Hne].
    + exists (lit "---" ++ pre ++ lit "---" ++ [10%N]). by rewrite <- !app_assoc.
    + exists (lit "---" ++ pre ++ lit "---"). by rewrite <- !app_assoc.
Qed.

Lemma contains_suffix (sep pre s : list N) : contains sep s → contains sep (pre ++ s).
Proof. intros (a & b & ->). exists (pre ++ a), b. by rewrite <- app_assoc. Qed.

Lemma Tokens_contains {A : Type} (tokenAt : list N → option (A * list N))
    (sep : list N) (s : list N) (l : list A) :
  (∀ s t s', tokenAt s = Some (t, s') → contains sep s) →
  Tokens tokenAt s l → l ≠ [] → contains sep s.
Proof.
  intros Hsep Hl. induction Hl as [He|ch s l Hn Hl IH|s t s' l Ht Hl IH]; intros Hne.
  - done.
  - by apply (contains_suffix sep [ch]), IH.
  - by eapply Hsep.
Qed.

(** X2: plain text gives no count: without [://] anywhere in the
    document the URL count is 0, and without [[[] the link count
    is 0. *)
Theorem no_marker_no_count (content : list N) :
  (¬ contains (lit "://") content → urls (calculateStats content) = 0) ∧
  (¬ contains (lit "[[") content → links (calculateStats content) = 0).
Proof.
  destruct (calculateStats_tokens content) as (us & ts & Hus & Hts & ->).
  destruct (contentWithoutFrontmatter_suffix content) as (pre & Hpre).
  cbn [urls links]. split; intros Hno.
  - destruct us as [|u us]; [reflexivity|]. exfalso. apply Hno.
    rewrite Hpre. apply contains_suffix.
    eapply Tokens_contains; [|exact Hus|done].
    intros s t s' (p & u' & Hp & _ & _ & -> & -> & _)%urlAt_shape.
    destruct Hp as [-> | ->].
    + exists (lit "http"), (u' ++ s'). by rewrite <- !app_assoc.
    + exists (lit "https"), (u' ++ s'). by rewrite <- !app_assoc.
  - destruct ts as [|t ts]; [reflexivity|]. exfalso. apply Hno.
    rewrite Hpre. apply contains_suffix.
    eapply Tokens_contains; [|exact Hts|done].
    intros s t' s' [_ ->]%targetAt_Some. by exists [], (t' ++ s').
Qed.

Lemma no_marker_no_count_witness :
  urls (calculateStats (lit "plain text, no link")) = 0.
Proof.
  apply (proj1 (no_marker_no_count (lit "plain text, no link"))).
  intros (a & b & Heq).
  assert (58%N ∈ lit "plain text, no link") as Hin
    by (rewrite Heq; apply elem_of_app; right; by left).
  revert Hin. apply (bool_decide_unpack _). exact I.
Defined.

(** ** URLs on both sides of white space *)

Lemma stripPrefix_app_Some (p s t x : list N) :
  stripPrefix p s = Some t → stripPrefix p (s ++ x) = Some (t ++ x).
Proof. intros ->%stripPrefix_Some. by rewrite <- app_assoc, stripPrefix_same. Qed.

Lemma stripPrefix_app_None (p s b : list N) (ws : N) :
  ws ∉ p → stripPrefix p s = None → stripPrefix p (s ++ ws :: b) = None.
Proof.
  revert s. induction p as [|a p IH]; intros s Hws; [discriminate|].
  apply not_elem_of_cons in Hws as [Hne Hws].
  destruct s as [|c s]; cbn [stripPrefix app].
  - intros _. destruct (N.eqb_spec a ws); congruence.
  - destruct (N.eqb a c); [by apply IH | done].
Qed.

Lemma takeWhile_app_stop (p : N → bool) (t b : list N) (ws : N) :
  p ws = false → takeWhile p (t ++ ws :: b) = takeWhile p t.
Proof.
  intros Hws. induction t as [|ch t IH]; simpl; [by rewrite Hws|].
  destruct (p ch); [by rewrite IH | reflexivity].
Qed.

Lemma dropWhile_app_stop (p : N → bool) (t b : list N) (ws : N) :
  p ws = false → dropWhile p (t ++ ws :: b) = dropWhile p t ++ ws :: b.
Proof.
  intros Hws. induction t as [|ch t IH]; simpl; [by rewrite Hws|].
  destruct (p ch); [exact IH | reflexivity].
Qed.

Lemma isWhiteSpace_not_in (ws : N) (p : list N) :
  isWhiteSpace ws = true → Forall (λ ch, isWhiteSpace ch = false) p → ws ∉ p.
Proof.
  intros Hws Hp Hin. rewrite Forall_forall in Hp. apply Hp in Hin. congruence.
Qed.

Lemma urlAt_app (s b : list N) (ws : N) :
  isWhiteSpace ws = true →
  urlAt (s ++ ws :: b) = (λ ts, (ts.1, ts.2 ++ ws :: b)) <$> urlAt s.
Proof.
  intros Hws.
  assert (urlChar ws = false) as Hch by (unfold urlChar; by rewrite Hws).
  assert (∀ p, ws ∉ p →
    match stripPrefix p (s ++ ws :: b) with
    | Some t =>
        match takeWhile urlChar t with
        | [] => None
        | u => Some (p ++ u, dropWhile urlChar t)
        end
    | None => None
    end =
    (λ ts, (ts.1, ts.2 ++ ws :: b)) <$>
    match stripPrefix p s with
    | Some t =>
        match takeWhile urlChar t with
        | [] => None
        | u => Some (p ++ u, dropWhile urlChar t)
        end
    | None => None
    end) as Hp.
  { intros p Hin. destruct (stripPrefix p s) as [t|] eqn:Ht.
    - rewrite (stripPrefix_app_Some _ _ _ _ Ht).
      rewrite takeWhile_app_stop, dropWhile_app_stop by done.
      by destruct (takeWhile urlChar t).
    - by rewrite stripPrefix_app_None. }
  unfold urlAt.
  rewrite !Hp by (apply isWhiteSpace_not_in; [done | by repeat constructor]).
  by destruct (stripPrefix (lit "http://") s) as [t|];
    [destruct (takeWhile urlChar t)|].
Qed.

Lemma Tokens_urlAt_app (a b : list N) (ws : N) (ua ub : list (list N)) :
  isWhiteSpace ws = true →
  Tokens urlAt a ua → Tokens urlAt b ub → Tokens urlAt (a ++ ws :: b) (ua ++ ub).
Proof.
  intros Hws Ha Hb.
  induction Ha as [He|ch s l Hn Ha IH|s t s' l Ht Ha IH]; cbn [app].
  - apply Tokens_skip; [|done].
    pose proof (urlAt_app [] b ws Hws) as Happ. cbn [app] in Happ.
    by rewrite Happ, He.
  - apply Tokens_skip; [|done].
    pose proof (urlAt_app (ch :: s) b ws Hws) as Happ. cbn [app] in Happ.
    by rewrite Happ, Hn.
  - eapply Tokens_take; [|exact IH]. by rewrite urlAt_app, Ht.
Qed.

Lemma calculateStats_no_dashes (content : list N) :
  stripPrefix (lit "---") content = None →
  contentWithoutFrontmatter content = content.
Proof.
  intros Hp. rewrite contentWithoutFrontmatter_stripBlock. unfold stripBlock.
  by rewrite Hp.
Qed.

(** X3: a URL never goes across white space.  For two texts joined by
    a white-space character, neither starting with [---], the URLs
    found are those of the first text followed by those of the second,
    so the count of the whole is the number of distinct URLs of the
    two: at least each count and at most their sum. *)
Theorem urls_split_at_white_space (a b : list N) (ws : N) :
  isWhiteSpace ws = true →
  stripPrefix (lit "---") a = None →
  stripPrefix (lit "---") b = None →
  ∃ ua ub,
    Tokens urlAt a ua ∧ Tokens urlAt b ub ∧
    urls (calculateStats a) = length (remove_dups ua) ∧
    urls (calculateStats b) = length (remove_dups ub) ∧
    urls (calculateStats (a ++ ws :: b)) = length (remove_dups (ua ++ ub)) ∧
    urls (calculateStats a) ≤ urls (calculateStats (a ++ ws :: b)) ∧
    urls (calculateStats b) ≤ urls (calculateStats (a ++ ws :: b)) ∧
    urls (calculateStats (a ++ ws :: b)) ≤
      urls (calculateStats a) + urls (calculateStats b).
Proof.
  intros Hws Ha Hb.
  assert (stripPrefix (lit "---") (a ++ ws :: b) = None) as Hab.
  { apply stripPrefix_app_None; [|done].
    apply isWhiteSpace_not_in; [done | by repeat constructor]. }
  destruct (calculateStats_tokens a) as (ua & ta & Hua & _ & Hsa).
  destruct (calculateStats_tokens b) as (ub & tb & Hub & _ & Hsb).
  destruct (calculateStats_tokens (a ++ ws :: b)) as (uab & tab & Huab & _ & Hsab).
  rewrite calculateStats_no_dashes in Hua, Hub, Huab by done.
  pose proof (Tokens_urlAt_app a b ws ua ub Hws Hua Hub) as Happ.
  rewrite (Tokens_functional _ _ _ _ Huab Happ) in Hsab.
  exists ua, ub. rewrite Hsa, Hsb, Hsab. cbn [urls].
  rewrite <- !size_list_to_set_remove_dups, list_to_set_app_L.
  split_and!; try done.
  - apply subseteq_size. set_solver.
  - apply subseteq_size. set_solver.
  - rewrite size_union_alt.
    pose proof (subseteq_size (list_to_set ub ∖ list_to_set ua : gset (list N))
                  (list_to_set ub)) as Hle.
    specialize (Hle ltac:(set_solver)). lia.
Qed.

Lemma urls_split_at_white_space_witness :
  urls (calculateStats (lit "see http://x" ++ 10%N :: lit "and http://x too")) = 1.
Proof.
  destruct (urls_split_at_white_space (lit "see http://x") (lit "and http://x too")
              10%N eq_refl eq_refl eq_refl)
    as (ua & ub & Hua & Hub & _ & _ & Hab & _).
  assert (Tokens urlAt (lit "see http://x") [lit "http://x"]) as Hua' by tokens.
  assert (Tokens urlAt (lit "and http://x too") [lit "http://x"]) as Hub' by tokens.
  rewrite (Tokens_functional _ _ _ _ Hua Hua'), (Tokens_functional _ _ _ _ Hub Hub') in Hab.
  exact Hab.
Defined.

(** ** The footer element *)

Lemma buildStatsString_nil `{Locale} (stats : FileStats) (settings : EOFStatsSettings) :
  buildStatsString stats settings = [] ↔
  showUrls settings = false ∧ showLinks settings = false.
Proof.
  unfold buildStatsString.
  destruct (showUrls settings), (showLinks settings); cbn [app Array_join];
    split; try done; intros [??]; done.
Qed.

(** X4: whatever the host's number format, the statistics line is in
    the footer exactly when a toggle is on, as the first of two
    children with the formatted text in [statsColor]; the last child is
    always the block of a rule, the label [EOF] and a rule in
    [lineColor], [eofColor] and [lineColor], whatever the statistics
    and the toggles are. *)
Theorem createEOFStatsElement_children `{Locale}
    (stats : FileStats) (settings : EOFStatsSettings) :
  let rule := createEl "eof-line-horizontal" [] [("borderColor", lineColor settings)] [] in
  let label := createEl "eof-text" (lit "EOF") [("color", eofColor settings)] [] in
  let block := createEl "eof-indicator" [] [] [rule; label; rule] in
  let line := createEl "eof-stats-line" (buildStatsString stats settings)
                [("color", statsColor settings)] [] in
  (buildStatsString stats settings = [] ↔
     showUrls settings = false ∧ showLinks settings = false) ∧
  children (createEOFStatsElement stats settings) =
    (if showUrls settings || showLinks settings then [line; block] else [block]) ∧
  last (children (createEOFStatsElement stats settings)) = Some block.
Proof.
  intros rule label block line.
  pose proof (buildStatsString_nil stats settings) as Hnil.
  split; [exact Hnil|].
  unfold createEOFStatsElement. cbv zeta. cbn [children createEl].
  fold rule label block.
  destruct (buildStatsString stats settings) as [|ch str] eqn:Hstr.
  - destruct Hnil as [Hnil _]. destruct (Hnil eq_refl) as [-> ->]. split; reflexivity.
  - assert (showUrls settings || showLinks settings = true) as ->.
    { destruct (showUrls settings), (showLinks settings); try reflexivity.
      destruct Hnil as [_ Hnil]. by specialize (Hnil (conj eq_refl eq_refl)). }
    subst line. split; reflexivity.
Qed.

(** ** The widget *)

Lemma eq_Some (w : World) (a b : EOFStatsWidget) (sa sb : EOFStatsSettings) :
  heap w !! Live.settings a = Some sa →
  heap w !! Live.settings b = Some sb →
  Live.eq w a b = Some true ↔ stats a = stats b ∧ sa = sb.
Proof.
  intros Ha Hb. unfold Live.eq. rewrite Ha, Hb. cbn [mbind option_bind].
  split.
  - intros [= Heq]. apply andb_true_iff in Heq as [Heq Hs].
    apply andb_true_iff in Heq as [Hu Hl].
    apply Nat.eqb_eq in Hu, Hl. apply eqSettings_true in Hs as (?&?&?&?&?).
    split.
    + destruct (stats a), (stats b); simpl in *; congruence.
    + destruct sa, sb; simpl in *; congruence.
  - intros [-> ->]. f_equal.
    rewrite !andb_true_iff, !Nat.eqb_eq, eqSettings_true. naive_solver.
Qed.

(** X5: [eq] is sound for skipping a redraw: two widgets for which it
    is true have the same element. *)
Theorem eq_widgets_same_element `{Locale} (w : World) (a b : EOFStatsWidget) :
  Live.eq w a b = Some true → toDOM w a = toDOM w b ∧ is_Some (toDOM w a).
Proof.
  intros Heq. unfold Live.eq in Heq.
  destruct (heap w !! Live.settings a) as [sa|] eqn:Ha; [|discriminate].
  destruct (heap w !! Live.settings b) as [sb|] eqn:Hb; [|discriminate].
  assert (Live.eq w a b = Some true) as Heq' by (unfold Live.eq; by rewrite Ha, Hb).
  apply (eq_Some w a b sa sb Ha Hb) in Heq' as [Hs ->].
  unfold toDOM. rewrite Ha, Hb, Hs. cbn [mbind option_bind]. split; [done | eauto].
Qed.

Lemma eq_widgets_same_element_witness :
  @toDOM en_US sampleWorld (mkWidget (mkStats 1 2) 1) =
  @toDOM en_US sampleWorld (mkWidget (mkStats 1 2) 1).
Proof.
  apply (@eq_widgets_same_element en_US sampleWorld
           (mkWidget (mkStats 1 2) 1) (mkWidget (mkStats 1 2) 1)).
  vm_compute. reflexivity.
Defined.

(** X6: on widgets whose settings objects exist [eq] is an equivalence:
    every widget equals itself, the order of the two does not matter,
    and equality carries over a widget in the middle. *)
Theorem eq_equivalence (w : World) (a b c : EOFStatsWidget) :
  (is_Some (heap w !! Live.settings a) → Live.eq w a a = Some true) ∧
  Live.eq w a b = Live.eq w b a ∧
  (Live.eq w a b = Some true → Live.eq w b c = Some true →
   Live.eq w a c = Some true).
Proof.
  split_and!.
  - intros [sa Ha]. by apply (eq_Some w a a sa sa).
  - unfold Live.eq.
    destruct (heap w !! Live.settings a) as [sa|], (heap w !! Live.settings b) as [sb|];
      cbn [mbind option_bind]; try reflexivity.
    f_equal. apply Bool.eq_true_iff_eq.
    rewrite !andb_true_iff, !Nat.eqb_eq, !eqSettings_true. naive_solver.
  - intros Hab Hbc. unfold Live.eq in Hab, Hbc.
    destruct (heap w !! Live.settings a) as [sa|] eqn:Ha; [|discriminate].
    destruct (heap w !! Live.settings b) as [sb|] eqn:Hb; [|discriminate].
    destruct (heap w !! Live.settings c) as [sc|] eqn:Hc; [|discriminate].
    assert (Live.eq w a b = Some true) as Hab' by (unfold Live.eq; by rewrite Ha, Hb).
    assert (Live.eq w b c = Some true) as Hbc' by (unfold Live.eq; by rewrite Hb, Hc).
    apply (eq_Some w a b sa sb Ha Hb) in Hab' as [? ?].
    apply (eq_Some w b c sb sc Hb Hc) in Hbc' as [? ?].
    apply (eq_Some w a c sa sc Ha Hc). split; congruence.
Qed.

Lemma eq_equivalence_witness :
  Live.eq sampleWorld (mkWidget (mkStats 1 2) 1) (mkWidget (mkStats 1 2) 1) = Some true.
Proof.
  apply (proj1 (eq_equivalence sampleWorld (mkWidget (mkStats 1 2) 1)
                  (mkWidget (mkStats 1 2) 1) (mkWidget (mkStats 1 2) 1))).
  vm_compute. eauto.
Defined.

(** ** The field over a session *)

Import Session.

Lemma buildEOFDecoration_heap (content : list N) (settings : positive) (w w' : World)
    (decorations : DecorationSet) :
  buildEOFDecoration content settings w = Some (decorations, w') →
  ∀ l v, heap w !! l = Some v → heap w' !! l = Some v.
Proof.
  unfold buildEOFDecoration.
  destruct (heap w !! settings) as [values|]; [|discriminate].
  intros [= <- <-] l v Hl. cbn [heap].
  rewrite lookup_insert_ne; [done|].
  intros Heq. pose proof (fresh_settings_unused w) as Hf.
  rewrite Heq in Hf. congruence.
Qed.

Lemma update_heap `{CodeMirror} (plugin : EOFStatsPlugin) (decorations : DecorationSet)
    (tr : Transaction) (w w' : World) (decorations' : DecorationSet) :
  update plugin decorations tr w = Some (decorations', w') →
  ∀ l v, heap w !! l = Some v → heap w' !! l = Some v.
Proof.
  unfold update. destruct (negb (docChanged tr)).
  - by intros [= <- <-].
  - apply buildEOFDecoration_heap.
Qed.

(** X7: the field never writes to a settings object: through any
    number of transactions every object of the heap, the shared
    settings among them, keeps its values, and a widget made before
    them keeps its element. *)
Theorem dispatchAll_keeps_settings `{Locale} `{CodeMirror} (plugin : EOFStatsPlugin)
    (decorations decorations' : DecorationSet) (trs : list Transaction)
    (w w' : World) :
  dispatchAll plugin decorations trs w = Some (decorations', w') →
  (∀ l v, heap w !! l = Some v → heap w' !! l = Some v) ∧
  (∀ widget, is_Some (heap w !! Live.settings widget) →
             toDOM w' widget = toDOM w widget).
Proof.
  intros Hrun.
  assert (∀ l v, heap w !! l = Some v → heap w' !! l = Some v) as Hheap.
  { revert decorations w Hrun.
    induction trs as [|tr trs IH]; intros decorations w; cbn [dispatchAll].
    - by intros [= <- <-].
    - destruct (update plugin decorations tr w) as [[d1 w1]|] eqn:Hu; [|discriminate].
      intros Hrun l v Hl. eapply IH; [exact Hrun|]. by eapply update_heap. }
  split; [exact Hheap|].
  intros widget [v Hv]. unfold toDOM. by rewrite Hv, (Hheap _ _ Hv).
Qed.

Lemma dispatchAll_keeps_settings_witness :
  heap sampleWorld !! 1%positive = Some DEFAULT_SETTINGS ∧
  ∀ w' decorations',
    @dispatchAll noChanges samplePlugin []
      [@mkTransaction noChanges true () (lit "a");
       @mkTransaction noChanges false () (lit "a")] sampleWorld
      = Some (decorations', w') →
    heap w' !! 1%positive = Some DEFAULT_SETTINGS.
Proof.
  split; [reflexivity|]. intros w' decorations' Hrun.
  apply (proj1 (@dispatchAll_keeps_settings en_US noChanges samplePlugin [] decorations'
                  _ sampleWorld w' Hrun)).
  reflexivity.
Defined.

(** X8: the footer follows the document.  From [create] on, through
    any transactions of which those that leave the document unchanged
    carry the same document, and with a host whose mapping keeps the
    decorations, the field holds one block widget, with the statistics
    of the current document and the values the shared settings have
    had all along. *)
Theorem field_shows_current_document `{Locale} `{CodeMirror}
    (plugin : EOFStatsPlugin) (doc : list N) (trs : list Transaction)
    (w : World) (values : EOFStatsSettings) :
  heap w !! plugin_settings plugin = Some values →
  consistent doc trs →
  (∀ c decorations, (RangeSet_map c decorations).*2 = decorations.*2) →
  ∃ decorations0 w0 decorations' w' widget,
    create plugin doc w = Some (decorations0, w0) ∧
    dispatchAll plugin decorations0 trs w0 = Some (decorations', w') ∧
    decorations'.*2 = [mkDecoration widget 1 true] ∧
    stats widget = calculateStats (currentDoc doc trs) ∧
    toDOM w' widget =
      Some (createEOFStatsElement (calculateStats (currentDoc doc trs)) values).
Proof.
  intros Hv Hcons Hmap.
  assert (∀ trs doc decorations w widget,
    heap w !! plugin_settings plugin = Some values →
    consistent doc trs →
    decorations.*2 = [mkDecoration widget 1 true] →
    stats widget = calculateStats doc →
    heap w !! Live.settings widget = Some values →
    ∃ decorations' w' widget',
      dispatchAll plugin decorations trs w = Some (decorations', w') ∧
      decorations'.*2 = [mkDecoration widget' 1 true] ∧
      stats widget' = calculateStats (currentDoc doc trs) ∧
      heap w' !! Live.settings widget' = Some values) as Hrun.
  { clear Hv Hcons. clear w doc trs. intros trs. induction trs as [|tr trs IH];
      intros doc decorations w widget Hv Hcons Hd Hs Hw.
    - exists decorations, w, widget. by split_and!.
    - destruct Hcons as [Hsame Hcons]. cbn [dispatchAll]. unfold update.
      change (currentDoc doc (tr :: trs)) with (currentDoc (state_doc tr) trs).
      destruct (docChanged tr) eqn:Hc; cbn [negb].
      + rewrite (buildEOFDecoration_Some _ _ _ _ Hv).
        eapply IH; [| exact Hcons | reflexivity | reflexivity |].
        * cbn [heap]. rewrite lookup_insert_ne; [exact Hv|].
          intros Heq. pose proof (fresh_settings_unused w) as Hf.
          rewrite Heq in Hf. congruence.
        * cbn [heap Live.settings]. apply lookup_insert_eq.
      + eapply IH; [exact Hv | exact Hcons | | | exact Hw].
        * by rewrite Hmap.
        * by rewrite Hsame. }
  unfold create. rewrite (buildEOFDecoration_Some _ _ _ _ Hv).
  destruct (Hrun trs doc
              [(length doc,
                mkDecoration (mkWidget (calculateStats doc) (fresh (dom (heap w)))) 1 true)]
              (mkWorld (<[fresh (dom (heap w)) := values]> (heap w)) (doc :: statsRuns w))
              (mkWidget (calculateStats doc) (fresh (dom (heap w)))))
    as (d' & w' & widget' & Hd & Hdeco & Hstats & Hread);
    [| exact Hcons | reflexivity | reflexivity | |].
  - cbn [heap]. rewrite lookup_insert_ne; [exact Hv|].
    intros Heq. pose proof (fresh_settings_unused w) as Hf.
    rewrite Heq in Hf. congruence.
  - cbn [heap Live.settings]. apply lookup_insert_eq.
  - eexists _, _, d', w', widget'. split_and!; [reflexivity | exact Hd | exact Hdeco | exact Hstats |].
    unfold toDOM. rewrite Hread, Hstats. reflexivity.
Qed.

Lemma field_shows_current_document_witness :
  ∃ decorations' w' widget,
    @dispatchAll noChanges samplePlugin
      [(1, mkDecoration (mkWidget (calculateStats (lit "a")) 2) 1 true)]
      [@mkTransaction noChanges true () (lit "[[b]]");
       @mkTransaction noChanges false () (lit "[[b]]")]
      (mkWorld (<[2%positive := DEFAULT_SETTINGS]> (heap sampleWorld)) [lit "a"])
      = Some (decorations', w') ∧
    decorations'.*2 = [mkDecoration widget 1 true] ∧
    stats widget = mkStats 0 1.
Proof.
  assert (@consistent noChanges (lit "a")
            [@mkTransaction noChanges true () (lit "[[b]]");
             @mkTransaction noChanges false () (lit "[[b]]")]) as Hcons.
  { split; [discriminate|]. split; [reflexivity | exact I]. }
  destruct (@field_shows_current_document en_US noChanges samplePlugin (lit "a")
              [@mkTransaction noChanges true () (lit "[[b]]");
               @mkTransaction noChanges false () (lit "[[b]]")]
              sampleWorld DEFAULT_SETTINGS eq_refl Hcons (λ _ _, eq_refl))
    as (d0 & w0 & d' & w' & widget & Hc & Hd & Hdeco & Hstats & _).
  injection Hc as <- <-.
  exists d', w', widget. split_and!; [exact Hd | exact Hdeco | exact Hstats].
Defined.

(** ** The reading view on any fragment *)

(** X9: whatever the fragment, the context and the vault, a call leaves
    no rejection without a handler and either leaves the fragment as it
    is or adds one child, the footer for the content of the file it
    read, after the children the fragment has; without section
    information the fragment is left as it is. *)
Theorem addEOFToReadingView_appends_at_most_once `{Locale} (vault : Vault)
    (settings : EOFStatsSettings) (el : HTMLElement)
    (ctx : MarkdownPostProcessorContext) :
  let out := addEOFToReadingView vault settings el ctx in
  unhandledRejection out = false ∧
  (fragment out = el ∨
   ∃ path content,
     getAbstractFileByPath vault (sourcePath ctx) = Some (TFile path) ∧
     cachedRead vault (TFile path) = Some content ∧
     fragment out =
       appendChild el (createEOFStatsElement (calculateStats content) settings) ∧
     children (fragment out) =
       children el ++ [createEOFStatsElement (calculateStats content) settings]) ∧
  (getSectionInfo ctx = None → fragment out = el).
Proof.
  cbv zeta. unfold addEOFToReadingView.
  destruct (getSectionInfo ctx) as [info|];
    [|split_and!; [reflexivity | by left | reflexivity]].
  destruct (getAbstractFileByPath vault (sourcePath ctx)) as [[path|path]|];
    [|split_and!; [reflexivity | by left | discriminate]..].
  destruct (cachedRead vault (TFile path)) as [content|] eqn:Hr;
    [|split_and!; [reflexivity | by left | discriminate]].
  destruct (lastLineIndex content <=? lineEnd info)%Z;
    [|split_and!; [reflexivity | by left | discriminate]].
  split_and!; [reflexivity | | discriminate].
  right. exists path, content. by split_and!.
Qed.

(** X10: the test is on the end line alone, so it holds for every
    fragment that ends at or after one for which it holds: when a
    fragment of a file gets the footer, every fragment of the same file
    with an end line at least as large gets the same footer. *)
Theorem footer_monotone_in_lineEnd `{Locale} (vault : Vault)
    (settings : EOFStatsSettings) (el1 el2 : HTMLElement) (source : string)
    (info1 info2 : SectionInfo) :
  (lineEnd info1 ≤ lineEnd info2)%Z →
  fragment (addEOFToReadingView vault settings el1 (mkContext (Some info1) source)) ≠ el1 →
  ∃ footer,
    fragment (addEOFToReadingView vault settings el1 (mkContext (Some info1) source))
      = appendChild el1 footer ∧
    fragment (addEOFToReadingView vault settings el2 (mkContext (Some info2) source))
      = appendChild el2 footer.
Proof.
  intros Hle. unfold addEOFToReadingView. cbn [getSectionInfo sourcePath].
  destruct (getAbstractFileByPath vault source) as [[path|path]|]; [|done..].
  destruct (cachedRead vault (TFile path)) as [content|]; [|done].
  destruct (Z.leb_spec (lastLineIndex content) (lineEnd info1)) as [H1|H1]; [|done].
  intros _. destruct (Z.leb_spec (lastLineIndex content) (lineEnd info2)) as [H2|H2]; [|lia].
  eexists. split; reflexivity.
Qed.

Lemma footer_monotone_in_lineEnd_witness :
  ∃ footer,
    fragment (@addEOFToReadingView en_US sampleVault DEFAULT_SETTINGS paragraph
                (mkContext (Some (mkSectionInfo 3 5)) "note.md"))
      = appendChild paragraph footer.
Proof.
  destruct (@footer_monotone_in_lineEnd en_US sampleVault DEFAULT_SETTINGS
              paragraph paragraph "note.md" (mkSectionInfo 1 1) (mkSectionInfo 3 5))
    as (footer & _ & H2).
  - simpl. lia.
  - apply appendChild_neq.
  - exists footer. exact H2.
Defined.

Lemma lastLineIndex_app (a b : list N) :
  lastLineIndex (a ++ b) = (lastLineIndex a + lastLineIndex b)%Z.
Proof. rewrite !lastLineIndex_newlines, filter_app, length_app. lia. Qed.

(** X11: a newline at the end of the file counts as the start of one
    more line.  For a file that ends with a newline the index of the
    last line is one more than that of the last line of text, so a
    fragment that ends on the last line of text gets no footer. *)
Theorem trailing_newline_moves_last_line `{Locale} (vault : Vault)
    (settings : EOFStatsSettings) (el : HTMLElement)
    (ctx : MarkdownPostProcessorContext) (sectionInfo : SectionInfo)
    (path : string) (body : list N) :
  getSectionInfo ctx = Some sectionInfo →
  getAbstractFileByPath vault (sourcePath ctx) = Some (TFile path) →
  cachedRead vault (TFile path) = Some (body ++ [10%N]) →
  (lineEnd sectionInfo ≤ lastLineIndex body)%Z →
  lastLineIndex (body ++ [10%N]) = (lastLineIndex body + 1)%Z ∧
  addEOFToReadingView vault settings el ctx = mkOutcome el false.
Proof.
  intros Hs Hf Hr Hle.
  assert (lastLineIndex (body ++ [10%N]) = (lastLineIndex body + 1)%Z) as Hlast
    by (rewrite lastLineIndex_app; reflexivity).
  split; [exact Hlast|].
  unfold addEOFToReadingView. rewrite Hs, Hf, Hr, Hlast.
  destruct (Z.leb_spec (lastLineIndex body + 1) (lineEnd sectionInfo)); [lia | reflexivity].
Qed.

Lemma trailing_newline_moves_last_line_witness :
  @addEOFToReadingView en_US
    (mkVault (λ _, Some (TFile "n.md")) (λ _, Some (lit "one" ++ [10%N])))
    DEFAULT_SETTINGS paragraph (mkContext (Some (mkSectionInfo 0 0)) "n.md")
  = mkOutcome paragraph false.
Proof.
  apply (@trailing_newline_moves_last_line en_US
           (mkVault (λ _, Some (TFile "n.md")) (λ _, Some (lit "one" ++ [10%N])))
           DEFAULT_SETTINGS paragraph (mkContext (Some (mkSectionInfo 0 0)) "n.md")
           (mkSectionInfo 0 0) "n.md" (lit "one") eq_refl eq_refl eq_refl).
  vm_compute. discriminate.
Defined.

(** X12: the two views agree.  For the same text and the values the
    shared settings have, the footer that the reading view adds to the
    last fragment is the element of the widget that [create] makes for
    the editor. *)
Theorem reading_view_matches_editor `{Locale} (vault : Vault) (plugin : EOFStatsPlugin)
    (w : World) (values : EOFStatsSettings) (el : HTMLElement)
    (ctx : MarkdownPostProcessorContext) (sectionInfo : SectionInfo)
    (path : string) (content : list N) :
  heap w !! plugin_settings plugin = Some values →
  getSectionInfo ctx = Some sectionInfo →
  getAbstractFileByPath vault (sourcePath ctx) = Some (TFile path) →
  cachedRead vault (TFile path) = Some content →
  (lastLineIndex content ≤ lineEnd sectionInfo)%Z →
  ∃ widget w' footer,
    create plugin content w =
      Some ([(length content, mkDecoration widget 1 true)], w') ∧
    toDOM w' widget = Some footer ∧
    fragment (addEOFToReadingView vault values el ctx) = appendChild el footer.
Proof.
  intros Hv Hs Hf Hr Hle. unfold create.
  rewrite (buildEOFDecoration_Some _ _ _ _ Hv).
  eexists _, _, _. split; [reflexivity|]. split.
  - unfold toDOM. cbn [heap Live.settings stats]. rewrite lookup_insert_eq. reflexivity.
  - unfold addEOFToReadingView. rewrite Hs, Hf, Hr.
    destruct (Z.leb_spec (lastLineIndex content) (lineEnd sectionInfo)); [reflexivity | lia].
Qed.

Lemma reading_view_matches_editor_witness :
  ∃ widget w' footer,
    create samplePlugin (lit ("one" +:+ nl +:+ "two")) sampleWorld =
      Some ([(7, mkDecoration widget 1 true)], w') ∧
    @toDOM en_US w' widget = Some footer ∧
    fragment (@addEOFToReadingView en_US sampleVault DEFAULT_SETTINGS paragraph
                (mkContext (Some (mkSectionInfo 1 1)) "note.md"))
      = appendChild paragraph footer.
Proof.
  apply (@reading_view_matches_editor en_US sampleVault samplePlugin sampleWorld
           DEFAULT_SETTINGS paragraph (mkContext (Some (mkSectionInfo 1 1)) "note.md")
           (mkSectionInfo 1 1) "note.md" (lit ("one" +:+ nl +:+ "two"))
           eq_refl eq_refl eq_refl eq_refl).
  vm_compute. discriminate.
Defined.

(** ** Loading and saving the settings *)

(** X13: [loadSettings] always yields a complete settings record in a
    new object and leaves the objects there are untouched: each field
    is the loaded one where the data has it and the default where it
    has not, and without data the settings are the defaults. *)
Theorem loadSettings_defaults_under_data (data : option SettingsObject) (w : World) :
  ∃ plugin w' values,
    loadSettings data w = Some (plugin, w') ∧
    heap w !! plugin_settings plugin = None ∧
    heap w' = <[plugin_settings plugin := values]> (heap w) ∧
    showUrls values = default (showUrls DEFAULT_SETTINGS) (data ≫= o_showUrls) ∧
    showLinks values = default (showLinks DEFAULT_SETTINGS) (data ≫= o_showLinks) ∧
    statsColor values = default (statsColor DEFAULT_SETTINGS) (data ≫= o_statsColor) ∧
    lineColor values = default (lineColor DEFAULT_SETTINGS) (data ≫= o_lineColor) ∧
    eofColor values = default (eofColor DEFAULT_SETTINGS) (data ≫= o_eofColor) ∧
    (data = None → values = DEFAULT_SETTINGS).
Proof.
  unfold loadSettings.
  destruct data as [[a b c d e]|]; cbn [Object_assign].
  - destruct a, b, c, d, e; cbn; eexists _, _, _;
      (split; [reflexivity|]); (split; [apply fresh_settings_unused|]);
      (split; [reflexivity|]); split_and!; done.
  - cbn. eexists _, _, _.
    split; [reflexivity|]. split; [apply fresh_settings_unused|].
    split; [reflexivity|]. split_and!; done.
Qed.

Lemma asSettings_toObject (values : EOFStatsSettings) :
  asSettings (Object_assign (Object_assign emptyObject (Some (toObject DEFAULT_SETTINGS)))
                (Some (toObject values))) = Some values.
Proof. by destruct values. Qed.

(** X14: what is saved comes back: the settings that [loadSettings]
    builds from the data that [saveData] wrote are the settings that
    were saved, whatever they are. *)
Theorem save_then_load (plugin : EOFStatsPlugin) (w w2 : World)
    (values : EOFStatsSettings) :
  heap w !! plugin_settings plugin = Some values →
  ∃ data plugin' w3,
    saveData plugin w = Some data ∧
    loadSettings data w2 = Some (plugin', w3) ∧
    heap w3 !! plugin_settings plugin' = Some values.
Proof.
  intros Hv. exists (Some (toObject values)).
  unfold saveData, loadSettings. rewrite Hv, asSettings_toObject.
  cbn [mbind option_bind].
  eexists _, _. split; [reflexivity|]. split; [reflexivity|].
  cbn [heap plugin_settings]. apply lookup_insert_eq.
Qed.

Lemma save_then_load_witness :
  ∃ data plugin' w3,
    saveData samplePlugin sampleWorld = Some data ∧
    loadSettings data sampleWorld = Some (plugin', w3) ∧
    heap w3 !! plugin_settings plugin' = Some DEFAULT_SETTINGS.
Proof.
  exact (save_then_load samplePlugin sampleWorld sampleWorld DEFAULT_SETTINGS eq_refl).
Defined.

(** ** The settings tab *)

Lemma orElse_nonempty (value fallback : list N) :
  fallback ≠ [] → orElse value fallback ≠ [].
Proof. by destruct value. Qed.

Lemma handler_colors (c : Change) (s : EOFStatsSettings) :
  statsColor s ≠ [] ∧ lineColor s ≠ [] ∧ eofColor s ≠ [] →
  statsColor (handler c s) ≠ [] ∧ lineColor (handler c s) ≠ [] ∧
  eofColor (handler c s) ≠ [].
Proof.
  intros (H1 & H2 & H3).
  destruct c; cbn [handler setShowUrls setShowLinks setStatsColor setLineColor
                     setEofColor statsColor lineColor eofColor];
    split_and!; try done; by apply orElse_nonempty.
Qed.

(** X15: no change in the settings tab leaves a colour empty: through
    any sequence of changes, settings whose three colours are not
    empty, the defaults among them, keep colours that are not empty,
    and a colour field that is cleared becomes [#999999]. *)
Theorem colors_never_empty (changes : list Change) (s : EOFStatsSettings) :
  statsColor s ≠ [] ∧ lineColor s ≠ [] ∧ eofColor s ≠ [] →
  let s' := foldl (λ s c, handler c s) s changes in
  (statsColor s' ≠ [] ∧ lineColor s' ≠ [] ∧ eofColor s' ≠ []) ∧
  statsColor (handler (StatsColor []) s') = lit "#999999" ∧
  lineColor (handler (LineColor []) s') = lit "#999999" ∧
  eofColor (handler (EofColor []) s') = lit "#999999".
Proof.
  intros Hs. cbv zeta. split; [|by split_and!].
  revert s Hs. induction changes as [|c changes IH]; intros s Hs; [exact Hs|].
  cbn [foldl]. by apply IH, handler_colors.
Qed.

Lemma colors_never_empty_witness :
  statsColor (foldl (λ s c, handler c s) DEFAULT_SETTINGS
                [StatsColor (lit "red"); ToggleUrls false; StatsColor []]) ≠ [].
Proof.
  apply (colors_never_empty
           [StatsColor (lit "red"); ToggleUrls false; StatsColor []] DEFAULT_SETTINGS).
  split_and!; discriminate.
Defined.

(** X16: a change in the settings tab is stored at once and in full:
    the data that [onChange] saves is the whole record with this one
    change made, a cleared colour as [#999999], and loading it gives
    these settings back. *)
Theorem onChange_saves_changed_settings `{CodeMirror} `{!Workspace}
    (c : Change) (plugin : EOFStatsPlugin) (leaves leaves' : list View)
    (w w' w2 : World) (values : EOFStatsSettings) (data : option SettingsObject) :
  heap w !! plugin_settings plugin = Some values →
  onChange c plugin leaves w = Some (data, leaves', w') →
  data = Some (toObject (handler c values)) ∧
  ∃ plugin' w3,
    loadSettings data w2 = Some (plugin', w3) ∧
    heap w3 !! plugin_settings plugin' = Some (handler c values).
Proof.
  intros Hv. unfold onChange, saveSettings, saveData, assign. cbn [heap].
  rewrite lookup_alter_eq, Hv. cbn [fmap option_fmap option_map mbind option_bind].
  destruct (updateEditorExtension _ _ _) as [[l1 w1]|]; [|discriminate].
  intros [= <- <- <-]. split; [reflexivity|].
  unfold loadSettings. rewrite asSettings_toObject. cbn [mbind option_bind].
  eexists _, _. split; [reflexivity|].
  cbn [heap plugin_settings]. apply lookup_insert_eq.
Qed.

Lemma onChange_saves_changed_settings_witness :
  ∃ leaves' w',
    @onChange noChanges simpleWorkspace (StatsColor []) samplePlugin [] sampleWorld =
    Some (Some (toObject DEFAULT_SETTINGS), leaves', w').
Proof.
  assert (∃ data leaves' w',
    @onChange noChanges simpleWorkspace (StatsColor []) samplePlugin [] sampleWorld =
    Some (data, leaves', w')) as (data & leaves' & w' & Hc)
    by (eexists _, _, _; reflexivity).
  destruct (@onChange_saves_changed_settings noChanges simpleWorkspace
              (StatsColor []) samplePlugin [] leaves' sampleWorld w' sampleWorld
              DEFAULT_SETTINGS data eq_refl Hc) as [-> _].
  exists leaves', w'. exact Hc.
Defined.

(** ** Saving the settings with editors open *)

Section Refresh.
Context `{CodeMirror} `{!Workspace}.
Variable viewDoc : EditorView → list N.
Variable viewField : EditorView → DecorationSet.

(** The host's part: a field that a reconfiguration brings in is
    initialised with its [create] on the document of the editor, and
    [requestMeasure] changes neither document nor field. *)
Hypothesis reconfigure_creates : ∀ field cm w decorations w',
  field_create field (viewDoc cm) w = Some (decorations, w') →
  ∃ cm', dispatchReconfigure field cm w = Some (cm', w') ∧
         viewDoc cm' = viewDoc cm ∧ viewField cm' = decorations.
Hypothesis requestMeasure_view : ∀ cm,
  viewDoc (requestMeasure cm) = viewDoc cm ∧
  viewField (requestMeasure cm) = viewField cm.

Lemma refreshed_later (values : EOFStatsSettings) (w w' : World) (view view' : View) :
  (∀ l v, heap w !! l = Some v → heap w' !! l = Some v) →
  refreshed viewDoc viewField values w view view' →
  refreshed viewDoc viewField values w' view view'.
Proof.
  intros Hheap. unfold refreshed.
  destruct view as [[cm|] pm|], view' as [[cm'|] pm'|]; try done.
  intros (Hpm & Hdoc & widget & Hfield & Hstats & Hread).
  split; [done|]. split; [done|]. exists widget. split_and!; [done..|].
  by apply Hheap.
Qed.

Lemma updateLeaf_refreshes (plugin : EOFStatsPlugin) (view : View) (w : World)
    (values : EOFStatsSettings) :
  heap w !! plugin_settings plugin = Some values →
  ∃ view' w',
    updateLeaf plugin view w = Some (view', w') ∧
    refreshed viewDoc viewField values w' view view' ∧
    (∀ l v, heap w !! l = Some v → heap w' !! l = Some v).
Proof.
  intros Hv. destruct view as [[cm|] pm|]; cbn [updateLeaf].
  - pose proof (buildEOFDecoration_Some (viewDoc cm) _ w values Hv) as Hb.
    destruct (reconfigure_creates (createEOFStatsField plugin) cm w _ _ Hb)
      as (cm' & -> & Hdoc & Hfield).
    eexists _, _. split; [reflexivity|]. split.
    + cbn [refreshed]. split; [reflexivity|].
      destruct (requestMeasure_view cm') as [-> ->]. split; [exact Hdoc|].
      eexists. split; [exact Hfield|]. split; [reflexivity|].
      cbn [heap Live.settings]. apply lookup_insert_eq.
    + by eapply buildEOFDecoration_heap.
  - eexists _, _. split; [reflexivity|]. by split.
  - eexists _, _. split; [reflexivity|]. by split.
Qed.

Lemma updateEditorExtension_refreshes (plugin : EOFStatsPlugin) (leaves : list View)
    (w : World) (values : EOFStatsSettings) :
  heap w !! plugin_settings plugin = Some values →
  ∃ leaves' w',
    updateEditorExtension plugin leaves w = Some (leaves', w') ∧
    Forall2 (refreshed viewDoc viewField values w') leaves leaves' ∧
    (∀ l v, heap w !! l = Some v → heap w' !! l = Some v).
Proof.
  revert w. induction leaves as [|view leaves IH]; intros w Hv.
  - exists [], w. split; [reflexivity|]. split; [constructor | done].
  - cbn [updateEditorExtension].
    destruct (updateLeaf_refreshes plugin view w values Hv)
      as (view' & w1 & -> & Hview & Hheap1).
    destruct (IH w1 (Hheap1 _ _ Hv)) as (leaves' & w2 & -> & Hleaves & Hheap2).
    exists (view' :: leaves'), w2. split; [reflexivity|]. split.
    + constructor; [by eapply refreshed_later | done].
    + intros l v Hl. by apply Hheap2, Hheap1.
Qed.

(** X17: saving the settings refreshes every open editor.  With a host
    that initialises a reconfigured field with its [create],
    [saveSettings] stores the values of the settings and leaves every
    markdown editor with one block widget at the end of its document,
    holding the statistics of that document and reading the saved
    values; the previews are rendered again, and views that are no
    markdown views are left alone, as are the settings themselves. *)
Theorem saveSettings_refreshes_views (plugin : EOFStatsPlugin) (leaves : list View)
    (w : World) (values : EOFStatsSettings) :
  heap w !! plugin_settings plugin = Some values →
  ∃ leaves' w',
    saveSettings plugin leaves w = Some (Some (toObject values), leaves', w') ∧
    Forall2 (refreshed viewDoc viewField values w') leaves leaves' ∧
    heap w' !! plugin_settings plugin = Some values.
Proof.
  intros Hv. unfold saveSettings, saveData. rewrite Hv. cbn [mbind option_bind].
  destruct (updateEditorExtension_refreshes plugin leaves w values Hv)
    as (leaves' & w' & -> & Hleaves & Hheap).
  exists leaves', w'. split; [reflexivity|]. split; [exact Hleaves | by apply Hheap].
Qed.

End Refresh.

Lemma saveSettings_refreshes_views_witness :
  ∃ leaves' w',
    @saveSettings noChanges simpleWorkspace samplePlugin
      [@MarkdownView noChanges simpleWorkspace (Some (lit "[[a]]", [])) (Some 0);
       @OtherView noChanges simpleWorkspace] sampleWorld =
    Some (Some (toObject DEFAULT_SETTINGS), leaves', w') ∧
    heap w' !! plugin_settings samplePlugin = Some DEFAULT_SETTINGS.
Proof.
  destruct (@saveSettings_refreshes_views noChanges simpleWorkspace fst snd)
    with (plugin := samplePlugin)
         (leaves := [@MarkdownView noChanges simpleWorkspace (Some (lit "[[a]]", [])) (Some 0);
                     @OtherView noChanges simpleWorkspace])
         (w := sampleWorld) (values := DEFAULT_SETTINGS)
    as (leaves' & w' & Hs & _ & Hv).
  - intros field cm w decorations w' Hc. exists (cm.1, decorations).
    cbn [dispatchReconfigure simpleWorkspace]. cbn [fst] in Hc. rewrite Hc. by split_and!.
  - intros cm. by split.
  - reflexivity.
  - exists leaves', w'. by split.
Defined.

(** ** Witnesses for the lemmas on the two revisions and on sessions *)

Lemma eq_detects_settings_change_witness :
  ∃ old w1 new w2,
    buildEOFDecoration (lit "a") (plugin_settings samplePlugin) sampleWorld =
      Some ([(1, mkDecoration old 1 true)], w1) ∧
    buildEOFDecoration (lit "a") (plugin_settings samplePlugin)
      (assign (setShowUrls false) samplePlugin w1) =
      Some ([(1, mkDecoration new 1 true)], w2) ∧
    Live.eq w2 old new = Some false.
Proof.
  apply (eq_detects_settings_change (lit "a") samplePlugin sampleWorld
           DEFAULT_SETTINGS (setShowUrls false)); [reflexivity | discriminate].
Defined.

Lemma Legacy_widget_shares_settings_witness :
  ∃ old w1 new w2,
    Legacy.buildEOFDecoration (lit "a") (plugin_settings samplePlugin) sampleWorld =
      Some ([(1, mkDecoration old 1 true)], w1) ∧
    Legacy.buildEOFDecoration (lit "a") (plugin_settings samplePlugin)
      (assign (setShowUrls false) samplePlugin w1) =
      Some ([(1, mkDecoration new 1 true)], w2) ∧
    heap w2 !! Live.settings old = Some (setShowUrls false DEFAULT_SETTINGS) ∧
    Live.eq w2 old new = Some true.
Proof.
  apply (Legacy_widget_shares_settings (lit "a") samplePlugin sampleWorld
           DEFAULT_SETTINGS (setShowUrls false)). reflexivity.
Defined.

Lemma Legacy_read_rejection_unhandled_witness :
  Legacy.addEOFToReadingView (λ _ _, paragraph)
    (mkVault (λ path, Some (TFile path)) (λ _, None)) DEFAULT_SETTINGS paragraph
    (mkContext (Some (mkSectionInfo 0 0)) "note.md") = mkOutcome paragraph true.
Proof.
  apply (Legacy_read_rejection_unhandled (λ _ _, paragraph)
           (mkVault (λ path, Some (TFile path)) (λ _, None)) DEFAULT_SETTINGS paragraph
           (mkContext (Some (mkSectionInfo 0 0)) "note.md") (mkSectionInfo 0 0)
           (TFile "note.md")); reflexivity.
Defined.

Lemma dispatchAll_statsRuns_witness :
  ∃ decorations' w',
    @dispatchAll noChanges samplePlugin []
      [@mkTransaction noChanges true () (lit "a");
       @mkTransaction noChanges false () (lit "a");
       @mkTransaction noChanges true () (lit "ab")] sampleWorld
      = Some (decorations', w') ∧
    statsRuns w' = [lit "ab"; lit "a"].
Proof.
  exact (@dispatchAll_statsRuns noChanges samplePlugin []
           [@mkTransaction noChanges true () (lit "a");
            @mkTransaction noChanges false () (lit "a");
            @mkTransaction noChanges true () (lit "ab")] sampleWorld
           DEFAULT_SETTINGS eq_refl).
Defined.
